(** * Geaux Driving API: a shallow embedding of [main.py]

    The booking/CRM backend is modelled as pure functions over an explicit
    store: Python dictionaries are finite maps from field names to values,
    [try]/[except] is an exception monad threaded through the store, and the
    request validation declared by the pydantic models is an error-collecting
    applicative. *)

From Stdlib Require Import ZArith NArith String Ascii List.
From stdpp Require Import base option list gmap strings fin_maps pretty.

Local Open Scope string_scope.
Local Open Scope Z_scope.

(** ** Python values *)

Module Py.

(** [bson.ObjectId]: twelve bytes, kept as the 96-bit number they spell. *)
Record ObjectId := mkObjectId { oid_binary : N }.

(** [datetime.datetime]; [tzinfo] is the UTC offset in whole seconds of an
    aware value, [None] for a naive one. *)
Record datetime := mkDatetime {
  year : N; month : N; day : N;
  hour : N; minute : N; second : N; microsecond : N;
  tzinfo : option Z
}.

(** The values a document field, a JSON body or a response can hold.
    Floats are left out. *)
#[warnings="-register-all"]
Inductive value :=
| VNone
| VBool (b : bool)
| VInt (z : Z)
| VStr (s : string)
| VObjectId (o : ObjectId)
| VDatetime (t : datetime)
| VList (l : list value)
| VDict (d : gmap string value).

End Py.
Export Py.

(** A document, and any other [dict] keyed by strings. *)
Abbreviation doc := (gmap string value).

(** ** Text helpers *)

Definition hex_digit (n : N) : ascii :=
  match n with
  | 0 => "0" | 1 => "1" | 2 => "2" | 3 => "3" | 4 => "4" | 5 => "5"
  | 6 => "6" | 7 => "7" | 8 => "8" | 9 => "9" | 10 => "a" | 11 => "b"
  | 12 => "c" | 13 => "d" | 14 => "e" | _ => "f"
  end%N%char.

(** The [w] low hexadecimal digits of [n], most significant first. *)
Fixpoint hex_fixed (w : nat) (n : N) (acc : string) : string :=
  match w with
  | O => acc
  | S w' => hex_fixed w' (N.shiftr n 4) (String (hex_digit (N.land n 15)) acc)
  end.

(** [str(ObjectId)]: the twelve bytes as 24 lower-case hexadecimal digits. *)
Definition str_ObjectId (o : ObjectId) : string :=
  hex_fixed 24 (oid_binary o) "".

Fixpoint zeros (n : nat) : string :=
  match n with O => "" | S n' => String "0"%char (zeros n') end.

(** ["%0wd" % n] *)
Definition zfill (w : nat) (n : N) : string :=
  let s := pretty n in zeros (w - String.length s) ++ s.

(** The UTC offset as [datetime.isoformat] prints it: [+HH:MM], with [:SS]
    when the offset is not a whole number of minutes. *)
Definition format_offset (off : Z) : string :=
  let sign := if off <? 0 then "-" else "+" in
  let a := Z.to_N (Z.abs off) in
  let hh := (a / 3600)%N in
  let mm := ((a mod 3600) / 60)%N in
  let ss := (a mod 60)%N in
  sign ++ zfill 2 hh ++ ":" ++ zfill 2 mm ++
  (if (ss =? 0)%N then "" else ":" ++ zfill 2 ss).

(** [datetime.isoformat(sep)] *)
Definition isoformat_sep (sep : string) (t : datetime) : string :=
  zfill 4 (year t) ++ "-" ++ zfill 2 (month t) ++ "-" ++ zfill 2 (day t) ++
  sep ++
  zfill 2 (hour t) ++ ":" ++ zfill 2 (minute t) ++ ":" ++ zfill 2 (second t) ++
  (if (microsecond t =? 0)%N then "" else "." ++ zfill 6 (microsecond t)) ++
  match tzinfo t with
  | None => ""
  | Some off => format_offset off
  end.

Definition isoformat : datetime -> string := isoformat_sep "T".

(** ** Utility helpers of [main.py] *)

Definition dict_is_empty (d : doc) : bool :=
  match map_to_list d with [] => true | _ => false end.

(** One turn of the loop of [serialize_doc]: the value stored under a key. *)
Definition serialize_value (v : value) : value :=
  match v with
  | VObjectId o => VStr (str_ObjectId o)
  | VDatetime t => VStr (isoformat t)
  | _ => v
  end.

(** [serialize_doc(doc)]. The argument is [None] or a dictionary; a falsy
    argument is handed back, otherwise [out] is filled key by key. *)
Definition serialize_doc (d : option doc) : option doc :=
  match d with
  | None => None
  | Some m =>
      if dict_is_empty m then Some m
      else Some (map_fold (fun k v out => <[k := serialize_value v]> out) ∅ m)
  end.

(** ** Exceptions and the store-passing monad *)

Inductive exn :=
| Exception (text : string)
| HTTPException (status_code : Z) (detail : string).

(** [str(e)] *)
Definition str_exn (e : exn) : string :=
  match e with
  | Exception text => text
  | HTTPException c d => pretty c ++ ": " ++ d
  end.

Inductive outcome (A : Type) :=
| Return (a : A)
| Raise (e : exn).
Arguments Return {A} a.
Arguments Raise {A} e.

(** A computation over a state [St] that returns or raises. *)
Definition M (St A : Type) : Type := St -> outcome A * St.

Definition ret {St A} (a : A) : M St A := fun s => (Return a, s).
Definition raise {St A} (e : exn) : M St A := fun s => (Raise e, s).
Definition bind {St A B} (m : M St A) (k : A -> M St B) : M St B :=
  fun s => match m s with
           | (Return a, s') => k a s'
           | (Raise e, s') => (Raise e, s')
           end.

(** [try: body / except Exception as e: handler]. What the body did to the
    state before it raised stays done. *)
Definition try_except {St A} (body : M St A) (handler : exn -> M St A) : M St A :=
  fun s => match body s with
           | (Return a, s') => (Return a, s')
           | (Raise e, s') => handler e s'
           end.

Declare Scope py_scope.
Delimit Scope py_scope with py.
Notation "x <- m ;; k" := (bind m (fun x => k))
  (at level 100, m at next level, right associativity) : py_scope.
Notation "m ;;; k" := (bind m (fun _ => k))
  (at level 100, right associativity) : py_scope.
Local Open Scope py_scope.

(** ** The document store *)

(** The connected database handle: its [name] attribute when it has one and
    its collections, each with its records in the order they came in. *)
Record Database := mkDatabase {
  db_name : option string;
  db_colls : gmap string (list doc)
}.

(** Everything outside the process that the endpoints read or write.
    [db] is the module-level handle of [database.py], [None] when the
    connection was never established. [faults] is what the next operations
    that reach the store will meet: [Some text] is a fault with that error
    text. [next_oid] and [now] feed the identifiers and timestamps the store
    assigns. *)
Record Store := mkStore {
  db : option Database;
  faults : list (option string);
  next_oid : N;
  now : datetime;
  DATABASE_URL : option string
}.

Definition set_db (d : Database) (s : Store) : Store :=
  mkStore (Some d) (faults s) (next_oid s) (now s) (DATABASE_URL s).
Definition set_faults (f : list (option string)) (s : Store) : Store :=
  mkStore (db s) f (next_oid s) (now s) (DATABASE_URL s).
Definition set_next_oid (n : N) (s : Store) : Store :=
  mkStore (db s) (faults s) n (now s) (DATABASE_URL s).

(** The records of a collection; a collection never written to is empty. *)
Definition collection (s : Store) (collection_name : string) : list doc :=
  match db s with
  | Some d => default [] (db_colls d !! collection_name)
  | None => []
  end.

(** One round trip to the store: it meets the next entry of [faults]. *)
Definition round_trip : M Store unit :=
  fun s => match faults s with
           | Some text :: rest => (Raise (Exception text), set_faults rest s)
           | None :: rest => (Return tt, set_faults rest s)
           | [] => (Return tt, s)
           end.

(** Replace the records of one collection. *)
Definition write_collection (collection_name : string) (records : list doc)
    : M Store unit :=
  fun s => match db s with
           | Some d =>
               (Return tt,
                set_db (mkDatabase (db_name d)
                          (<[collection_name := records]> (db_colls d))) s)
           | None => (Return tt, s)
           end.

(** The next identifier the store hands out. *)
Definition fresh_oid : M Store ObjectId :=
  fun s => (Return (mkObjectId (next_oid s)), set_next_oid (next_oid s + 1)%N s).

Definition gets {A} (f : Store -> A) : M Store A := fun s => (Return (f s), s).

(** ** Pydantic models *)

(** [BaseModel.model_dump()]: the fields as a plain dictionary. *)
Class BaseModel (A : Type) := model_dump : A -> doc.

(** What [create_document] accepts as a record: a model or a dictionary. *)
Class Record_like (A : Type) := as_mapping : A -> doc.
#[global] Instance model_record `{BaseModel A} : Record_like A := model_dump.
#[global] Instance dict_record : Record_like doc := fun d => d.

Definition opt_str (o : option string) : value :=
  match o with Some s => VStr s | None => VNone end.

(** A dictionary display [{k1: v1, ..., kn: vn}]: a later key wins. *)
Definition dict_of (items : list (string * value)) : doc :=
  fold_left (fun d kv => <[kv.1 := kv.2]> d) items ∅.

(** [d.get(k)] *)
Definition dict_get (d : doc) (k : string) : value := default VNone (d !! k).

Module BookingCreate.
Record t := mk {
    student_name : string;
    email : string;
    phone : string;
    service : string;
    instructor : option string;
    date : string;
    time : string;
    pickup_location : option string;
    notes : option string
}.
#[global] Instance dump : BaseModel t := fun p =>
    dict_of [("student_name", VStr (student_name p)); ("email", VStr (email p));
             ("phone", VStr (phone p)); ("service", VStr (service p));
             ("instructor", opt_str (instructor p)); ("date", VStr (date p));
             ("time", VStr (time p));
             ("pickup_location", opt_str (pickup_location p));
             ("notes", opt_str (notes p))].
End BookingCreate.

Module LeadCreate.
Record t := mk {
    name : string;
    email : string;
    phone : option string;
    source : string;
    message : option string;
    tag : option string
}.
#[global] Instance dump : BaseModel t := fun p =>
    dict_of [("name", VStr (name p)); ("email", VStr (email p));
             ("phone", opt_str (phone p)); ("source", VStr (source p));
             ("message", opt_str (message p)); ("tag", opt_str (tag p))].
End LeadCreate.

Module ContactMessage.
Record t := mk {
    name : string;
    email : string;
    subject : string;
    message : string
}.
#[global] Instance dump : BaseModel t := fun p =>
    dict_of [("name", VStr (name p)); ("email", VStr (email p));
             ("subject", VStr (subject p)); ("message", VStr (message p))].
End ContactMessage.

Module EmailTemplate.
Record t := mk {
    key : string;
    subject : string;
    html : string
}.
#[global] Instance dump : BaseModel t := fun p =>
    dict_of [("key", VStr (key p)); ("subject", VStr (subject p));
             ("html", VStr (html p))].
End EmailTemplate.

(** *** Validation of a request body

    A body is the JSON object of the request as Python sees it. Pydantic
    checks every field and reports all failures together. *)

Inductive error_type := missing | string_type | value_error.

(** A failure names the field it is about. *)
Definition error_detail : Type := string * error_type.

Definition V (A : Type) : Type := list error_detail + A.

Definition errors {A} (r : V A) : list error_detail :=
  match r with inl es => es | inr _ => [] end.

(** Apply a constructor to one more validated field, keeping every error. *)
Definition vapp {A B} (f : V (A -> B)) (a : V A) : V B :=
  match f, a with
  | inr g, inr x => inr (g x)
  | _, _ => inl (errors f ++ errors a)%list
  end.
Infix "<*>" := vapp (at level 61, left associativity).

(** [name: str] *)
Definition required_str (body : doc) (k : string) : V string :=
  match body !! k with
  | None => inl [(k, missing)]
  | Some (VStr s) => inr s
  | Some _ => inl [(k, string_type)]
  end.

(** [name: Optional[str] = None] *)
Definition optional_str (body : doc) (k : string) : V (option string) :=
  match body !! k with
  | None | Some VNone => inr None
  | Some (VStr s) => inr (Some s)
  | Some _ => inl [(k, string_type)]
  end.

(** [name: str = Field(dflt)] *)
Definition defaulted_str (dflt : string) (body : doc) (k : string) : V string :=
  match body !! k with
  | None => inr dflt
  | Some (VStr s) => inr s
  | Some _ => inl [(k, string_type)]
  end.

(** ** Truthiness, text and whitespace *)

(** [bool(v)] *)
Definition truthy (v : value) : bool :=
  match v with
  | VNone => false
  | VBool b => b
  | VInt z => negb (z =? 0)
  | VStr s => negb (String.length s =? 0)%nat
  | VObjectId _ | VDatetime _ => true
  | VList l => negb (length l =? 0)%nat
  | VDict d => negb (dict_is_empty d)
  end.

(** [a or b] *)
Definition py_or (a b : value) : value := if truthy a then a else b.

(** The characters [str.strip] removes, among the first 128. *)
Definition is_space (c : ascii) : bool :=
  let n := N_of_ascii c in
  ((9 <=? n) && (n <=? 13) || (28 <=? n) && (n <=? 32))%N.

Fixpoint lstrip (s : string) : string :=
  match s with
  | String c s' => if is_space c then lstrip s' else s
  | EmptyString => EmptyString
  end.

Definition rstrip (s : string) : string := String.rev (lstrip (String.rev s)).

(** [s.strip()] *)
Definition strip (s : string) : string := rstrip (lstrip s).

(** Text is kept as its UTF-8 bytes. A character is a byte that is not a
    continuation byte (one of the form 10xxxxxx), together with the
    continuation bytes that follow it. *)
Definition is_continuation (c : ascii) : bool :=
  let n := N_of_ascii c in ((128 <=? n) && (n <? 192))%N.

(** [len(s)]: the number of characters. *)
Fixpoint str_len (s : string) : nat :=
  match s with
  | EmptyString => O
  | String c s' => if is_continuation c then str_len s' else S (str_len s')
  end.

(** [s[:n]]: the first [n] characters. *)
Fixpoint str_take (n : nat) (s : string) : string :=
  match s with
  | EmptyString => EmptyString
  | String c s' =>
      if is_continuation c then String c (str_take n s')
      else match n with
           | O => EmptyString
           | S n' => String c (str_take n' s')
           end
  end.

(** [needle in s] *)
Fixpoint contains (needle s : string) : bool :=
  String.prefix needle s ||
  match s with
  | String _ s' => contains needle s'
  | EmptyString => false
  end.

(** ** What FastAPI can write as JSON

    The value an endpoint returns goes through [jsonable_encoder]: it has
    no encoding for an [ObjectId], wherever it sits, and writes a
    [datetime] as its ISO 8601 text. *)
Fixpoint encodable (v : value) : bool :=
  match v with
  | VObjectId _ => false
  | VList l => forallb encodable l
  | VDict d => map_fold (fun _ x acc => encodable x && acc) true d
  | _ => true
  end.

Fixpoint jsonable (v : value) : value :=
  match v with
  | VDatetime t => VStr (isoformat t)
  | VList l => VList (List.map jsonable l)
  | VDict d => VDict (jsonable <$> d)
  | _ => v
  end.

Section Api.

(** What the deployment fixes and [main.py] does not: the address grammar
    behind [EmailStr] (the normalised address, or [None] for a malformed
    one), [str] of a list or dictionary, and the error text [database.py]
    gives when the connection was never established; and what the store
    decides and the spec leaves open: the order in which it yields the
    records of a collection, and how many records a negative limit lets
    through. *)
Variable validate_email : string -> option string.
Variable repr_container : value -> string.
Variable unavailable_text : string.
Variable store_order : list doc -> list doc.
Variable negative_limit : Z -> nat.

(** [str(v)], which is also how an f-string renders [v]. *)
Definition py_str (v : value) : string :=
  match v with
  | VNone => "None"
  | VBool true => "True"
  | VBool false => "False"
  | VInt z => pretty z
  | VStr s => s
  | VObjectId o => str_ObjectId o
  | VDatetime t => isoformat_sep " " t
  | VList _ | VDict _ => repr_container v
  end.

(** [email: EmailStr] *)
Definition email_str (body : doc) (k : string) : V string :=
  match body !! k with
  | None => inl [(k, missing)]
  | Some (VStr s) =>
      match validate_email s with
      | Some e => inr e
      | None => inl [(k, value_error)]
      end
  | Some _ => inl [(k, string_type)]
  end.

Definition validate_BookingCreate (body : doc) : V BookingCreate.t :=
  inr BookingCreate.mk
    <*> required_str body "student_name"
    <*> email_str body "email"
    <*> required_str body "phone"
    <*> required_str body "service"
    <*> optional_str body "instructor"
    <*> required_str body "date"
    <*> required_str body "time"
    <*> optional_str body "pickup_location"
    <*> optional_str body "notes".

Definition validate_LeadCreate (body : doc) : V LeadCreate.t :=
  inr LeadCreate.mk
    <*> required_str body "name"
    <*> email_str body "email"
    <*> optional_str body "phone"
    <*> defaulted_str "website" body "source"
    <*> optional_str body "message"
    <*> optional_str body "tag".

Definition validate_ContactMessage (body : doc) : V ContactMessage.t :=
  inr ContactMessage.mk
    <*> required_str body "name"
    <*> email_str body "email"
    <*> required_str body "subject"
    <*> required_str body "message".

(** ** [database.py] *)

(** The fields the store adds to every record it takes. *)
Definition id_field : string := "_id".
Definition timestamp_field : string := "created_at".

(** Modelled from the spec: [create_document] of [database.py], which is not
    among the sources. It takes the record as a plain field mapping, writes
    it to the named collection with a store-assigned identifier and the
    insertion timestamp, and returns the identifier as a string. It fails
    when the connection was never established and when the write faults,
    and does not retry. The spec names neither added field; [id_field] and
    [timestamp_field] are MongoDB's and this model's. *)
Definition create_document `{Record_like A} (collection_name : string) (data : A)
    : M Store string :=
  d <- gets db;;
  match d with
  | None => raise (Exception unavailable_text)
  | Some _ =>
      (round_trip;;;
       oid <- fresh_oid;;
       t <- gets now;;
       let record :=
         <[id_field := VObjectId oid]>
           (<[timestamp_field := VDatetime t]> (as_mapping data)) in
       records <- gets (fun s => collection s collection_name);;
       (write_collection collection_name (records ++ [record]);;;
        ret (str_ObjectId oid)))
  end.

(** How many records a limit lets through. *)
Definition limit_count (limit : Z) : nat :=
  if 0 <=? limit then Z.to_nat limit else negative_limit limit.

(** Modelled from the spec: [get_documents] of [database.py], which is not
    among the sources. It returns up to [limit] records of the named
    collection in the store's order, and fails like [create_document]. The
    spec fixes neither that order nor what a negative limit does:
    [store_order] and [negative_limit] stand for them. *)
Definition get_documents (collection_name : string) (limit : Z)
    : M Store (list doc) :=
  d <- gets db;;
  match d with
  | None => raise (Exception unavailable_text)
  | Some _ =>
      (round_trip;;;
       records <- gets (fun s => collection s collection_name);;
       ret (take (limit_count limit) (store_order records)))
  end.

(** [db.list_collection_names()] on a connected handle. *)
Definition list_collection_names (d : Database) : M Store (list string) :=
  (round_trip;;; ret (map_to_list (db_colls d)).*1).

(** ** Basic routes *)

Definition read_root : M Store value :=
  ret (VDict (dict_of [("message", VStr "Geaux Driving API is running")])).

(** The body of [test_database] runs over the store and its local
    [response] dictionary, which it updates in place. *)
Definition setitem (k : string) (v : value) : M (Store * doc) unit :=
  fun st => (Return tt, (st.1, <[k := v]> st.2)).

Definition on_store {A} (m : M Store A) : M (Store * doc) A :=
  fun st => let (o, s') := m st.1 in (o, (s', st.2)).

(** Run [body] on a fresh [response] and return the dictionary. *)
Definition returning_response (response : doc) (body : M (Store * doc) unit)
    : M Store value :=
  fun s => match body (s, response) with
           | (Return _, (s', r)) => (Return (VDict r), s')
           | (Raise e, (s', _)) => (Raise e, s')
           end.

Definition getenv_set (v : option string) : bool :=
  match v with Some s => truthy (VStr s) | None => false end.

Definition test_database : M Store value :=
  returning_response
    (dict_of [("backend", VStr "✅ Running");
              ("database", VStr "❌ Not Available");
              ("database_url", VStr "❌ Not Set");
              ("database_name", VStr "❌ Not Set");
              ("connection_status", VStr "Not Connected");
              ("collections", VList [])])
    (try_except
       (d <- on_store (gets db);;
        match d with
        | Some d =>
            (setitem "database" (VStr "✅ Available");;;
             url <- on_store (gets DATABASE_URL);;
             (setitem "database_url"
                (VStr (if getenv_set url then "✅ Set" else "❌ Not Set"));;;
              setitem "database_name"
                (VStr (match db_name d with
                       | Some n => n
                       | None => "✅ Connected"
                       end));;;
              setitem "connection_status" (VStr "Connected");;;
              try_except
                (collections <- on_store (list_collection_names d);;
                 (setitem "collections" (VList (VStr <$> take 15 collections));;;
                  setitem "database" (VStr "✅ Connected & Working")))
                (fun e =>
                   setitem "database"
                     (VStr ("⚠️ Connected but Error: " ++ str_take 80 (str_exn e))))))
        | None => setitem "database" (VStr "⚠️ Available but not initialized")
        end)
       (fun e =>
          setitem "database" (VStr ("❌ Error: " ++ str_take 120 (str_exn e))))).

(** ** Booking endpoints *)

Definition create_booking (payload : BookingCreate.t) : M Store value :=
  try_except
    (booking_id <- create_document "booking" payload;;
     let lead := model_dump payload in
     let lead_doc :=
       dict_of
         [("name", dict_get lead "student_name");
          ("email", dict_get lead "email");
          ("phone", dict_get lead "phone");
          ("source", VStr "booking");
          ("tag", dict_get lead "service");
          ("message",
           VStr ("Booking requested for " ++ py_str (dict_get lead "service") ++
                 " on " ++ py_str (dict_get lead "date") ++
                 " at " ++ py_str (dict_get lead "time") ++
                 " with instructor " ++
                 py_str (py_or (dict_get lead "instructor") (VStr "Any")) ++
                 "."))] in
     (create_document "lead" lead_doc;;;
      ret (VDict (dict_of [("success", VBool true);
                           ("booking_id", VStr booking_id)]))))
    (fun e => raise (HTTPException 500 (str_exn e))).

Definition list_bookings (limit : Z) : M Store value :=
  try_except
    (docs <- get_documents "booking" limit;;
     ret (VList ((fun d => from_option VDict VNone (serialize_doc (Some d))) <$> docs)))
    (fun e => raise (HTTPException 500 (str_exn e))).

(** ** CRM lead endpoints *)

Definition create_lead (payload : LeadCreate.t) : M Store value :=
  try_except
    (lead_id <- create_document "lead" payload;;
     ret (VDict (dict_of [("success", VBool true); ("lead_id", VStr lead_id)])))
    (fun e => raise (HTTPException 500 (str_exn e))).

Definition list_leads (limit : Z) : M Store value :=
  try_except
    (docs <- get_documents "lead" limit;;
     ret (VList ((fun d => from_option VDict VNone (serialize_doc (Some d))) <$> docs)))
    (fun e => raise (HTTPException 500 (str_exn e))).

(** ** Contact form endpoint *)

Definition contact (payload : ContactMessage.t) : M Store value :=
  try_except
    (let doc0 := model_dump payload in
     let doc1 := <["source" := VStr "contact"]> doc0 in
     lead_id <- create_document "lead" doc1;;
     ret (VDict (dict_of [("success", VBool true); ("lead_id", VStr lead_id)])))
    (fun e => raise (HTTPException 500 (str_exn e))).

(** ** Email templates *)

Definition email_templates : list EmailTemplate.t :=
  let brand := "Geaux Driving" in
  let zutobi_url := "https://www.zutobi.com/" in
  [ EmailTemplate.mk
      "welcome"
      ("Welcome to " ++ brand ++ "! Your Path to Safe, Confident Driving")
      (strip ("
            <h2>Welcome to " ++ brand ++ "!</h2>
            <p>We're excited to help you become a safe, confident driver. You can book or manage your lessons anytime on our website.</p>
            <p>Before your first lesson, spend 10 minutes reviewing your <a href='" ++ zutobi_url ++ "'>Zutobi</a> modules to maximize your time in the car.</p>
            <p>Questions? Just reply to this email. We're here to help!</p>
            <p>— The " ++ brand ++ " Team</p>
            "));
    EmailTemplate.mk
      "booking_confirmation"
      (brand ++ ": Your Driving Lesson is Confirmed")
      (strip ("
            <h2>Your lesson is confirmed!</h2>
            <p>Thank you for booking with " ++ brand ++ ". You'll receive a reminder 24 hours before your lesson.</p>
            <p>Bring your permit/license and wear comfortable shoes. Review your <a href='" ++ zutobi_url ++ "'>Zutobi</a> module beforehand.</p>
            <p>Need to reschedule? Use the link in your confirmation or contact support.</p>
            "));
    EmailTemplate.mk
      "post_lesson"
      (brand ++ ": Great work today — review your evaluation in Zutobi")
      (strip ("
            <h2>Great job behind the wheel!</h2>
            <p>Your instructor has submitted your evaluation in Zutobi. Log in to review your progress and next steps.</p>
            <p><a href='" ++ zutobi_url ++ "'>Access your evaluation</a></p>
            <p>Keep practicing and see you soon!</p>
            ")) ].

(** ** Schema explorer *)

Definition get_schema : M Store value :=
  let names := fun l : list string => VList (VStr <$> l) in
  ret (VDict (dict_of
    [("collections",
      VList
        [VDict (dict_of
           [("name", VStr "booking");
            ("fields",
             names ["student_name"; "email"; "phone"; "service"; "instructor";
                    "date"; "time"; "pickup_location"; "notes"])]);
         VDict (dict_of
           [("name", VStr "lead");
            ("fields",
             names ["name"; "email"; "phone"; "source"; "tag"; "message"])])])])).

(** ** The routes as FastAPI serves them *)

Inductive Request :=
| GET_root
| GET_test
| POST_api_bookings (body : doc)
| GET_api_bookings (limit : option Z)
| POST_api_leads (body : doc)
| GET_api_leads (limit : option Z)
| POST_api_contact (body : doc)
| GET_api_email_templates
| GET_schema.

Inductive Response :=
| Response200 (content : value)
| Response422 (detail : list error_detail)
| ResponseError (status_code : Z) (detail : string).

(** Run an endpoint: its value, encoded, is the body of a 200 response; an
    [HTTPException] becomes a response with its status and detail; and a
    value that cannot be encoded, like anything else that escapes, ends in
    the framework's plain 500. *)
Definition answer (v : value) : Response :=
  if encodable v then Response200 (jsonable v)
  else ResponseError 500 "Internal Server Error".

Definition respond (endpoint : M Store value) (s : Store) : Response * Store :=
  match endpoint s with
  | (Return v, s') => (answer v, s')
  | (Raise (HTTPException c d), s') => (ResponseError c d, s')
  | (Raise (Exception _), s') => (ResponseError 500 "Internal Server Error", s')
  end.

(** A route with a body parameter: the endpoint runs only on a payload that
    validates; otherwise the answer is a 422 and the endpoint is not called. *)
Definition with_payload {A} (payload : V A) (endpoint : A -> M Store value)
    (s : Store) : Response * Store :=
  match payload with
  | inl es => (Response422 es, s)
  | inr p => respond (endpoint p) s
  end.

Definition handle (r : Request) : Store -> Response * Store :=
  match r with
  | GET_root => respond read_root
  | GET_test => respond test_database
  | POST_api_bookings body => with_payload (validate_BookingCreate body) create_booking
  | GET_api_bookings limit => respond (list_bookings (default 50 limit))
  | POST_api_leads body => with_payload (validate_LeadCreate body) create_lead
  | GET_api_leads limit => respond (list_leads (default 100 limit))
  | POST_api_contact body => with_payload (validate_ContactMessage body) contact
  | GET_api_email_templates =>
      respond (ret (VList ((fun t => VDict (model_dump t)) <$> email_templates)))
  | GET_schema => respond get_schema
  end.

(** The three routes that create a record, and the fields each one's model
    declares without a default. *)
Inductive create_route := Bookings | Leads | Contact.

Definition post (r : create_route) (body : doc) : Request :=
  match r with
  | Bookings => POST_api_bookings body
  | Leads => POST_api_leads body
  | Contact => POST_api_contact body
  end.

Definition required_fields (r : create_route) : list string :=
  match r with
  | Bookings => ["student_name"; "email"; "phone"; "service"; "date"; "time"]
  | Leads => ["name"; "email"]
  | Contact => ["name"; "email"; "subject"; "message"]
  end.

(** Everything validation has against a body on a creating route. *)
Definition route_errors (r : create_route) (body : doc) : list error_detail :=
  match r with
  | Bookings => errors (validate_BookingCreate body)
  | Leads => errors (validate_LeadCreate body)
  | Contact => errors (validate_ContactMessage body)
  end.

End Api.

(** The store is connected and its next [n] round trips meet no fault. *)
Definition quiet (fs : list (option string)) : bool :=
  forallb (fun f => match f with None => true | Some _ => false end) fs.

Definition no_fault (n : nat) (s : Store) : bool :=
  match db s with
  | Some _ => quiet (take n (faults s))
  | None => false
  end.

(** What the next round trip raises, if anything: the connection was never
    established, or the store faults. *)
Definition next_fault (unavailable_text : string) (s : Store) : option exn :=
  match db s, faults s with
  | None, _ => Some (Exception unavailable_text)
  | Some _, Some text :: _ => Some (Exception text)
  | Some _, _ => None
  end.

(** The spec's words for what serialization does to one field value. *)
Definition serialized_as (v v' : value) : Prop :=
  match v with
  | VObjectId o => v' = VStr (str_ObjectId o)
  | VDatetime t => v' = VStr (isoformat t)
  | _ => v' = v
  end.

(** The store after a record went into a collection, and the record as
    stored. *)
Definition stored_record (s : Store) (data : doc) : doc :=
  <[id_field := VObjectId (mkObjectId (next_oid s))]>
    (<[timestamp_field := VDatetime (now s)]> data).

Definition after_insert (s : Store) (collection_name : string) (data : doc)
    : Store :=
  match db s with
  | Some d =>
      mkStore
        (Some (mkDatabase (db_name d)
                 (<[collection_name := (collection s collection_name
                                         ++ [stored_record s data])%list]>
                    (db_colls d))))
        (tail (faults s)) (next_oid s + 1)%N (now s) (DATABASE_URL s)
  | None => s
  end.

(** The store after a round trip that faulted: nothing but the consumed
    entry of [faults] differs. *)
Definition after_fault (s : Store) : Store :=
  match db s with
  | Some _ => set_faults (tail (faults s)) s
  | None => s
  end.

(** ** Data for the examples and the words of the statements *)

(** A store for the examples: connected, no fault pending, one booking with
    an identifier and a timestamp among its fields. *)
Definition sample_time : datetime := mkDatetime 2024 3 9 14 5 0 0 None.

Definition sample_booking : doc :=
  dict_of [("_id", VObjectId (mkObjectId 255));
           ("created_at", VDatetime sample_time);
           ("student_name", VStr "Ann"); ("notes", VNone)].

Definition sample_store : Store :=
  mkStore
    (Some (mkDatabase (Some "geaux")
             (<["booking" := [sample_booking]]> ∅)))
    [] 256 sample_time None.

(** No field value is an [ObjectId] or a [datetime]. *)
Definition is_plain (v : value) : bool :=
  match v with
  | VObjectId _ | VDatetime _ => false
  | _ => true
  end.

Definition plain_doc (d : option doc) : Prop :=
  match d with
  | Some m => map_Forall (fun _ v => is_plain v = true) m
  | None => True
  end.

(** What a list endpoint hands back for one queried document [d]: a
    dictionary with the same keys whose values are those of [d], serialized. *)
Definition serialized_doc (d : doc) (v : value) : Prop :=
  exists d' : doc,
    v = VDict d' /\ dom d' = dom d /\
    forall k x, d !! k = Some x ->
      exists x', d' !! k = Some x' /\ serialized_as x x'.

Definition brand : string := "Geaux Driving".
Definition zutobi_url : string := "https://www.zutobi.com/".

(** What [test_database] reports under ["database"]. *)
Definition database_status (s : Store) : string :=
  match db s, faults s with
  | None, _ => "⚠️ Available but not initialized"
  | Some _, Some text :: _ => "⚠️ Connected but Error: " ++ str_take 80 text
  | Some _, _ => "✅ Connected & Working"
  end.

(** The instructor as the lead message names it: [Any] when the booking
    has none or an empty one. *)
Definition instructor_or_any (o : option string) : string :=
  match o with
  | Some (String c i) => String c i
  | _ => "Any"
  end.

(** An address check to stand for the grammar in examples: something, an
    at sign, something. *)
Definition sample_validate_email (e : string) : option string :=
  match index 0 "@" e with
  | Some (S _ as i) =>
      if (S i <? String.length e)%nat then Some e else None
  | _ => None
  end.

Definition sample_repr (v : value) : string := "[...]".

(** A store that yields its records oldest first and treats a negative
    limit as none at all. *)
Definition sample_order (records : list doc) : list doc := records.
Definition sample_negative (limit : Z) : nat := O.

Definition sample_lead_body : doc :=
  dict_of [("name", VStr "Bo"); ("email", VStr "bo@example.com")].

(** Five stored bookings, and a store whose next round trip faults. *)
Definition five_bookings_store : Store :=
  mkStore
    (Some (mkDatabase (Some "geaux")
             (<["booking" :=
                  (fun i => dict_of [("_id", VObjectId (mkObjectId i));
                                     ("student_name", VStr "Ann")])
                    <$> [1; 2; 3; 4; 5]%N]> ∅)))
    [] 6 sample_time None.

Definition faulty_store : Store :=
  mkStore
    (Some (mkDatabase (Some "geaux") (<["booking" := [sample_booking]]> ∅)))
    [Some "connection reset"] 256 sample_time None.

Definition sample_booking_body : doc :=
  dict_of [("student_name", VStr "Ann"); ("email", VStr "ann@example.com");
           ("phone", VStr "555-0100"); ("service", VStr "Road Test Prep");
           ("date", VStr "2024-05-01"); ("time", VStr "10am")].

(** The contact form of the spec's example. *)
Definition example_contact_body : doc :=
  dict_of [("name", VStr "A"); ("email", VStr "a@b.com");
           ("subject", VStr "Hi"); ("message", VStr "test")].

(** The records a response carries: the elements of a 200's list, none
    otherwise. *)
Definition records (r : Response) : list value :=
  match r with
  | Response200 (VList out) => out
  | _ => []
  end.

(** ** Further helpers of [main.py] and words for further statements *)

(** [oid_str(value)]: [str(value)], or the value itself should [str] raise. *)
Definition oid_str {St} (repr_container : value -> string) (value0 : value)
    : M St value :=
  try_except
    (ret (VStr (py_str repr_container value0)))
    (fun _ => ret value0).

(** A value that is not a string, [None] included. *)
Definition not_str (v : value) : bool :=
  match v with
  | VStr _ => false
  | _ => true
  end.

(** A list or a dictionary: a value with values inside. *)
Definition is_container (v : value) : bool :=
  match v with
  | VList _ | VDict _ => true
  | _ => false
  end.

(** What a body must hold under [k] for a field to validate to [x]:
    a string; a string or null or nothing; an address the grammar accepts;
    a string or nothing, with a default. *)
Definition str_field (body : doc) (k x : string) : Prop :=
  body !! k = Some (VStr x).

Definition opt_field (body : doc) (k : string) (o : option string) : Prop :=
  match body !! k with
  | None | Some VNone => o = None
  | Some (VStr x) => o = Some x
  | Some _ => False
  end.

Definition email_field (validate_email : string -> option string)
    (body : doc) (k x : string) : Prop :=
  exists e, body !! k = Some (VStr e) /\ validate_email e = Some x.

Definition dflt_field (dflt : string) (body : doc) (k x : string) : Prop :=
  match body !! k with
  | None => x = dflt
  | Some (VStr y) => x = y
  | Some _ => False
  end.

(** Every field a creating route's model declares, and those among them
    that must be strings when given. *)
Definition declared_fields (r : create_route) : list string :=
  match r with
  | Bookings => ["student_name"; "email"; "phone"; "service"; "instructor";
                 "date"; "time"; "pickup_location"; "notes"]
  | Leads => ["name"; "email"; "phone"; "source"; "message"; "tag"]
  | Contact => ["name"; "email"; "subject"; "message"]
  end.

Definition str_fields (r : create_route) : list string :=
  match r with
  | Leads => required_fields r ++ ["source"]
  | _ => required_fields r
  end%list.

(** The dictionary [test_database] returns. *)
Definition health_report (s : Store) : doc :=
  match test_database s with
  | (Return (VDict response), _) => response
  | _ => ∅
  end.

(** The names of the collections of a database, in the store's order. *)
Definition collection_names (d : Database) : list string :=
  (map_to_list (db_colls d)).*1.

(** The field names a schema description lists for a collection. *)
Definition as_str (v : value) : option string :=
  match v with
  | VStr x => Some x
  | _ => None
  end.

Definition describes (collection_name : string) (v : value) : bool :=
  match v with
  | VDict e =>
      match e !! "name" with
      | Some (VStr n) => String.eqb n collection_name
      | _ => false
      end
  | _ => false
  end.

Definition schema_fields (schema : value) (collection_name : string)
    : option (list string) :=
  match schema with
  | VDict d =>
      match d !! "collections" with
      | Some (VList cs) =>
          match List.find (describes collection_name) cs with
          | Some (VDict e) =>
              match e !! "fields" with
              | Some (VList fs) => mapM as_str fs
              | _ => None
              end
          | _ => None
          end
      | _ => None
      end
  | _ => None
  end.

(** The dictionary [create_booking] builds for the lead of a booking. *)
Definition booking_lead_doc (repr_container : value -> string)
    (payload : BookingCreate.t) : doc :=
  let lead := model_dump payload in
  dict_of
    [("name", dict_get lead "student_name");
     ("email", dict_get lead "email");
     ("phone", dict_get lead "phone");
     ("source", VStr "booking");
     ("tag", dict_get lead "service");
     ("message",
      VStr ("Booking requested for " ++
            py_str repr_container (dict_get lead "service") ++
            " on " ++ py_str repr_container (dict_get lead "date") ++
            " at " ++ py_str repr_container (dict_get lead "time") ++
            " with instructor " ++
            py_str repr_container
              (py_or (dict_get lead "instructor") (VStr "Any")) ++
            "."))].

(** The requests that only read. *)
Definition is_get (r : Request) : bool :=
  match r with
  | POST_api_bookings _ | POST_api_leads _ | POST_api_contact _ => false
  | _ => true
  end.

(** A validation error that tells the truth about the body: a field
    reported missing is required and absent; a field reported as not a
    string is declared, present and not a string (and not null either when
    the field is optional); a refused address is a string under [email]
    that the grammar refuses. *)
Definition accurate (validate_email : string -> option string)
    (r : create_route) (body : doc) (e : error_detail) : Prop :=
  match e.2 with
  | missing => e.1 ∈ required_fields r /\ body !! e.1 = None
  | string_type =>
      e.1 ∈ declared_fields r /\
      exists v, body !! e.1 = Some v /\ not_str v = true /\
                (e.1 ∉ str_fields r -> v <> VNone)
  | value_error =>
      e.1 = "email" /\
      exists x, body !! "email" = Some (VStr x) /\ validate_email x = None
  end.

(** What each kind of field can report. *)
Definition reports_missing (body : doc) (k : string) (e : error_detail) : Prop :=
  e = (k, missing) /\ body !! k = None.

Definition reports_type (body : doc) (k : string) (e : error_detail) : Prop :=
  e = (k, string_type) /\ exists v, body !! k = Some v /\ not_str v = true.

Definition reports_type_not_null (body : doc) (k : string) (e : error_detail)
    : Prop :=
  e = (k, string_type) /\
  exists v, body !! k = Some v /\ not_str v = true /\ v <> VNone.

Definition reports_refused (validate_email : string -> option string)
    (body : doc) (k : string) (e : error_detail) : Prop :=
  e = (k, value_error) /\
  exists x, body !! k = Some (VStr x) /\ validate_email x = None.

(** A validation result that, when it fails, says why. *)
Definition says_why {A} (r : V A) : Prop :=
  match r with
  | inl es => es <> []
  | inr _ => True
  end.

(** A value that is JSON already: it can be encoded and encoding leaves it
    as it is. A number, a string, a truth value, [None]. A document whose
    fields are all such. *)
Definition json_ready (v : value) : Prop :=
  encodable v = true /\ jsonable v = v.

Definition primitive (v : value) : bool :=
  match v with
  | VNone | VBool _ | VInt _ | VStr _ => true
  | _ => false
  end.

Definition ready_doc (d : doc) : Prop :=
  map_Forall (fun _ v => json_ready v) d.

(** What a list endpoint returns for the documents a query yields. *)
Definition serialized_list (docs : list doc) : list value :=
  (fun d => from_option VDict VNone (serialize_doc (Some d))) <$> docs.

(** A flat document, as the data model has them: no field holds a list or
    a dictionary. *)
Definition flat_doc (d : doc) : Prop :=
  map_Forall (fun _ v => is_container v = false) d.

(** * Properties *)

(** ** Encoding *)

Lemma encodable_dict (d : doc) :
  encodable (VDict d) = true <-> map_Forall (fun _ v => encodable v = true) d.
Proof.
  simpl.
  apply (map_fold_weak_ind
           (fun (b : bool) (m : doc) =>
              b = true <-> map_Forall (fun _ v => encodable v = true) m)).
  - split; [intros _; apply map_Forall_empty | done].
  - intros k v m r Hk IH. rewrite andb_true_iff, IH.
    by rewrite map_Forall_insert.
Qed.

Lemma json_ready_primitive (v : value) : primitive v = true -> json_ready v.
Proof. by destruct v. Qed.

Lemma json_ready_dict (d : doc) : ready_doc d -> json_ready (VDict d).
Proof.
  intros Hd. split.
  - apply encodable_dict. intros k v Hk. by destruct (Hd k v Hk).
  - simpl. f_equal. apply map_eq. intros k. rewrite lookup_fmap.
    destruct (d !! k) as [v|] eqn:Hk; [|done]. simpl.
    by destruct (Hd k v Hk) as [_ ->].
Qed.

Lemma json_ready_list (l : list value) : Forall json_ready l -> json_ready (VList l).
Proof.
  intros Hl. split; simpl.
  - apply forallb_forall. intros v Hv.
    rewrite Forall_forall in Hl. apply list_elem_of_In in Hv. by destruct (Hl v Hv).
  - f_equal. induction Hl as [|v l [_ Hv] _ IH]; simpl; [done|]. by rewrite Hv, IH.
Qed.

Lemma json_ready_strings (l : list string) : json_ready (VList (VStr <$> l)).
Proof.
  apply json_ready_list, Forall_fmap, Forall_forall. intros x _.
  by apply json_ready_primitive.
Qed.

Lemma ready_doc_empty : ready_doc ∅.
Proof. apply map_Forall_empty. Qed.

Lemma ready_doc_insert (k : string) (v : value) (d : doc) :
  json_ready v -> ready_doc d -> ready_doc (<[k := v]> d).
Proof. intros Hv Hd. by apply map_Forall_insert_2. Qed.

Lemma ready_doc_dict_of (items : list (string * value)) :
  Forall (fun kv => json_ready kv.2) items -> ready_doc (dict_of items).
Proof.
  unfold dict_of. generalize (∅ : doc) (ready_doc_empty).
  induction items as [|[k v] items IH]; intros d Hd Hitems; simpl; [done|].
  inversion Hitems as [|? ? Hv Hrest]; subst.
  apply IH; [|done]. by apply ready_doc_insert.
Qed.

Lemma respond_ready (endpoint : M Store value) (s s' : Store) (v : value) :
  endpoint s = (Return v, s') -> json_ready v ->
  respond endpoint s = (Response200 v, s').
Proof. unfold respond, answer. intros -> [-> ->]. done. Qed.

(** Settle that a dictionary built from strings, truth values and lists of
    strings is JSON already. *)
Ltac json_ready_doc :=
  repeat first
    [ apply ready_doc_empty
    | apply ready_doc_insert
    | apply ready_doc_dict_of; repeat constructor
    | apply json_ready_strings
    | apply (json_ready_strings [])
    | apply json_ready_dict
    | apply json_ready_primitive; reflexivity ].

(** ** Serialization *)

Lemma dict_is_empty_true (m : doc) : dict_is_empty m = true -> m = ∅.
Proof.
  unfold dict_is_empty. destruct (map_to_list m) eqn:E; [|discriminate].
  intros _. by apply map_to_list_empty_iff.
Qed.

Lemma serialize_loop_fmap (m : doc) :
  map_fold (fun k v out => <[k := serialize_value v]> out) ∅ m
  = serialize_value <$> m.
Proof.
  apply (map_fold_weak_ind (fun r (m : doc) => r = serialize_value <$> m)).
  - by rewrite fmap_empty.
  - intros k v m' r _ ->. by rewrite fmap_insert.
Qed.

Lemma serialize_doc_Some (m : doc) :
  serialize_doc (Some m) = Some (serialize_value <$> m).
Proof.
  unfold serialize_doc. destruct (dict_is_empty m) eqn:E.
  - apply dict_is_empty_true in E. subst. by rewrite fmap_empty.
  - by rewrite serialize_loop_fmap.
Qed.

Lemma serialize_value_spec (v : value) : serialized_as v (serialize_value v).
Proof. by destruct v. Qed.

Lemma serialize_value_idem (v : value) :
  serialize_value (serialize_value v) = serialize_value v.
Proof. by destruct v. Qed.

(** ** The store operations *)

Lemma round_trip_ok (s : Store) :
  quiet (take 1 (faults s)) = true ->
  round_trip s = (Return tt, set_faults (tail (faults s)) s).
Proof.
  unfold round_trip. destruct s as [d fs n t u]; simpl.
  by destruct fs as [|[text|] fs].
Qed.

Lemma round_trip_fault (s : Store) (text : string) :
  head (faults s) = Some (Some text) ->
  round_trip s = (Raise (Exception text), set_faults (tail (faults s)) s).
Proof.
  unfold round_trip. destruct (faults s) as [|[x|] fs]; simpl; intros [=]. by subst.
Qed.

Lemma next_fault_None (ut : string) (s : Store) :
  next_fault ut s = None <-> no_fault 1 s = true.
Proof.
  unfold next_fault, no_fault. destruct (db s) as [d|]; simpl; [|done].
  by destruct (faults s) as [|[x|] fs].
Qed.

Section StoreLemmas.

Variable unavailable_text : string.
Variable store_order : list doc -> list doc.
Variable negative_limit : Z -> nat.

Lemma create_document_ok `{Record_like A} (c : string) (data : A) (s : Store) :
  no_fault 1 s = true ->
  create_document unavailable_text c data s
  = (Return (str_ObjectId (mkObjectId (next_oid s))),
     after_insert s c (as_mapping data)).
Proof.
  unfold no_fault. destruct (db s) as [d|] eqn:Hd; [|done]. intros Hf.
  unfold create_document, bind, gets at 1. simpl.
  rewrite Hd. rewrite (round_trip_ok s Hf).
  unfold after_insert, fresh_oid, gets, write_collection, ret, collection,
    stored_record. simpl. by rewrite Hd.
Qed.

Lemma create_document_fault `{Record_like A} (c : string) (data : A) (s : Store)
    (e : exn) :
  next_fault unavailable_text s = Some e ->
  create_document unavailable_text c data s = (Raise e, after_fault s).
Proof.
  unfold next_fault, after_fault, create_document, bind, gets at 1. simpl.
  destruct (db s) as [d|] eqn:Hd.
  - destruct (faults s) as [|[text|] fs] eqn:Hf; intros [=]; subst.
    rewrite (round_trip_fault s text); by rewrite Hf.
  - by intros [= <-].
Qed.

Lemma get_documents_ok (c : string) (limit : Z) (s : Store) :
  no_fault 1 s = true ->
  get_documents unavailable_text store_order negative_limit c limit s
  = (Return (take (limit_count negative_limit limit)
               (store_order (collection s c))),
     set_faults (tail (faults s)) s).
Proof.
  unfold no_fault. destruct (db s) as [d|] eqn:Hd; [|done]. intros Hf.
  unfold get_documents, bind, gets at 1. simpl.
  rewrite Hd. rewrite (round_trip_ok s Hf). unfold gets, ret, collection. simpl.
  by rewrite Hd.
Qed.

Lemma get_documents_fault (c : string) (limit : Z) (s : Store) (e : exn) :
  next_fault unavailable_text s = Some e ->
  get_documents unavailable_text store_order negative_limit c limit s = (Raise e, after_fault s).
Proof.
  unfold next_fault, after_fault, get_documents, bind, gets at 1. simpl.
  destruct (db s) as [d|] eqn:Hd.
  - destruct (faults s) as [|[text|] fs] eqn:Hf; intros [=]; subst.
    rewrite (round_trip_fault s text); by rewrite Hf.
  - by intros [= <-].
Qed.

End StoreLemmas.

Lemma after_insert_same (s : Store) (c : string) (data : doc) :
  no_fault 0 s = true ->
  collection (after_insert s c data) c
  = (collection s c ++ [stored_record s data])%list.
Proof.
  unfold no_fault. destruct (db s) as [d|] eqn:Hd; [|done]. intros _.
  unfold after_insert. rewrite Hd. unfold collection at 1. simpl.
  by rewrite lookup_insert_eq.
Qed.

Lemma after_insert_other (s : Store) (c c' : string) (data : doc) :
  c <> c' ->
  collection (after_insert s c data) c' = collection s c'.
Proof.
  intros Hne. unfold after_insert. destruct (db s) as [d|] eqn:Hd; [|done].
  unfold collection at 1. simpl. rewrite lookup_insert_ne by done.
  unfold collection. by rewrite Hd.
Qed.

Lemma after_insert_no_fault (n : nat) (s : Store) (c : string) (data : doc) :
  no_fault (S n) s = true -> no_fault n (after_insert s c data) = true.
Proof.
  unfold after_insert, no_fault. destruct (db s) as [d|] eqn:Hd; [|done]. simpl.
  destruct (faults s) as [|[x|] fs]; simpl; try done.
  by rewrite take_nil.
Qed.

Lemma no_fault_le (n m : nat) (s : Store) :
  (n <= m)%nat -> no_fault m s = true -> no_fault n s = true.
Proof.
  unfold no_fault, quiet. destruct (db s) as [d|]; [|done].
  rewrite !forallb_forall. intros Hle Hf f Hin. apply Hf.
  apply list_elem_of_In, list_elem_of_lookup in Hin as [i Hi].
  apply list_elem_of_In, list_elem_of_lookup. exists i.
  rewrite lookup_take_Some in Hi. rewrite lookup_take_Some. intuition lia.
Qed.

Lemma serialize_doc_serialized (d : doc) :
  serialized_doc d (from_option VDict VNone (serialize_doc (Some d))).
Proof.
  rewrite serialize_doc_Some. simpl. exists (serialize_value <$> d).
  split; [done|]. split; [by rewrite dom_fmap_L|].
  intros k x Hk. exists (serialize_value x). rewrite lookup_fmap, Hk.
  split; [done | apply serialize_value_spec].
Qed.

(** C4. Whatever documents the store query yields, [list_bookings] and
    [list_leads] return one dictionary per document, with the same keys;
    under each key an [ObjectId] has become its string form, a [datetime]
    its ISO 8601 text, and a value of any other type is the same value. *)
Theorem list_endpoints_serialize_documents
    (unavailable_text : string) (store_order : list doc -> list doc)
    (negative_limit : Z -> nat)
    (limit : Z) (s s' : Store) (docs : list doc) :
  (get_documents unavailable_text store_order negative_limit "booking" limit s
   = (Return docs, s') ->
   exists out,
     list_bookings unavailable_text store_order negative_limit limit s
     = (Return (VList out), s') /\
     Forall2 serialized_doc docs out) /\
  (get_documents unavailable_text store_order negative_limit "lead" limit s
   = (Return docs, s') ->
   exists out,
     list_leads unavailable_text store_order negative_limit limit s
     = (Return (VList out), s') /\
     Forall2 serialized_doc docs out).
Proof.
  split; intros Hq; eexists;
    unfold list_bookings, list_leads, try_except, bind; rewrite Hq;
    (split; [reflexivity|]);
    apply Forall2_fmap_r, Forall_Forall2_diag, Forall_forall;
    intros d _; apply serialize_doc_serialized.
Qed.

Lemma list_endpoints_serialize_documents_witness :
  exists out,
    list_bookings "down" sample_order sample_negative 50 sample_store
    = (Return (VList out), sample_store) /\
    Forall2 serialized_doc [sample_booking] out.
Proof.
  apply (list_endpoints_serialize_documents "down" sample_order sample_negative
           50 sample_store sample_store [sample_booking]).
  vm_compute. reflexivity.
Defined.

(** C10. [serialize_doc] is idempotent; the document it returns holds no
    [ObjectId] and no [datetime] under any key; and [None] and the empty
    dictionary come back as they are. *)
Theorem serialize_doc_idempotent (d : option doc) :
  serialize_doc (serialize_doc d) = serialize_doc d /\
  plain_doc (serialize_doc d) /\
  serialize_doc None = None /\
  serialize_doc (Some ∅) = Some ∅.
Proof.
  split; [|split; [|split]].
  - destruct d as [m|]; [|done].
    rewrite !serialize_doc_Some. f_equal.
    rewrite <- map_fmap_compose. apply map_fmap_ext.
    intros k v _. apply serialize_value_idem.
  - destruct d as [m|]; [|done].
    rewrite serialize_doc_Some. simpl.
    intros k v. rewrite lookup_fmap. destruct (m !! k) as [x|]; [|done].
    intros [= <-]. by destruct x.
  - done.
  - by rewrite serialize_doc_Some, fmap_empty.
Qed.

(** ** Email templates *)

(** C9. Whatever the store, [GET /api/email-templates] answers 200 with
    three templates and leaves the store alone; their keys are [welcome],
    [booking_confirmation] and [post_lesson]; every subject and every html
    is non-empty; every subject carries the brand name and every html the
    external link. *)
Theorem email_templates_fixed
    (validate_email : string -> option string)
    (repr_container : value -> string) (unavailable_text : string)
    (store_order : list doc -> list doc) (negative_limit : Z -> nat)
    (s : Store) :
  handle validate_email repr_container unavailable_text store_order
    negative_limit GET_api_email_templates s
  = (Response200 (VList ((fun t => VDict (model_dump t)) <$> email_templates)), s) /\
  length email_templates = 3%nat /\
  EmailTemplate.key <$> email_templates
  = ["welcome"; "booking_confirmation"; "post_lesson"] /\
  Forall (fun t => EmailTemplate.subject t <> "" /\ EmailTemplate.html t <> "")
    email_templates /\
  Forall (fun t => contains brand (EmailTemplate.subject t) = true /\
                   contains zutobi_url (EmailTemplate.html t) = true)
    email_templates.
Proof.
  split; [reflexivity|]. split; [reflexivity|]. split; [reflexivity|].
  split; repeat constructor; try discriminate; vm_compute; reflexivity.
Qed.

(** ** The health check *)

(** C8. For every store, [test_database] returns its status dictionary and
    [GET /test] answers 200 with it: nothing is raised. With no connection
    the report says so; when listing the collections faults, the report
    carries the first 80 characters of the error text and an empty
    collection list is kept. *)
Theorem test_database_never_raises
    (validate_email : string -> option string)
    (repr_container : value -> string) (unavailable_text : string)
    (store_order : list doc -> list doc) (negative_limit : Z -> nat)
    (s : Store) :
  exists (response : doc) (s' : Store),
    test_database s = (Return (VDict response), s') /\
    handle validate_email repr_container unavailable_text store_order
    negative_limit GET_test s
    = (Response200 (VDict response), s') /\
    response !! "backend" = Some (VStr "✅ Running") /\
    response !! "database" = Some (VStr (database_status s)) /\
    response !! "connection_status"
    = Some (VStr (match db s with
                  | Some _ => "Connected"
                  | None => "Not Connected"
                  end)) /\
    (next_fault unavailable_text s = None \/
     response !! "collections" = Some (VList [])).
Proof.
  destruct s as [[[n colls]|] fs m t u].
  - destruct fs as [|[text|] fs].
    + do 2 eexists. split; [reflexivity|].
      split; [apply respond_ready;
               [reflexivity | apply json_ready_dict; simpl; json_ready_doc]|].
      repeat split; try (vm_compute; reflexivity). by left.
    + do 2 eexists. split; [reflexivity|].
      split; [apply respond_ready;
               [reflexivity | apply json_ready_dict; simpl; json_ready_doc]|].
      repeat split; try (vm_compute; reflexivity). right. vm_compute. reflexivity.
    + do 2 eexists. split; [reflexivity|].
      split; [apply respond_ready;
               [reflexivity | apply json_ready_dict; simpl; json_ready_doc]|].
      repeat split; try (vm_compute; reflexivity). by left.
  - do 2 eexists. split; [reflexivity|].
      split; [apply respond_ready;
               [reflexivity | apply json_ready_dict; simpl; json_ready_doc]|].
    repeat split; try (vm_compute; reflexivity). right. vm_compute. reflexivity.
Qed.

(** ** Validation *)

Lemma vapp_inr {A B} (f : V (A -> B)) (a : V A) (b : B) :
  f <*> a = inr b -> exists g x, f = inr g /\ a = inr x /\ b = g x.
Proof.
  destruct f as [es|g], a as [es'|x]; simpl; intros [=]. by exists g, x.
Qed.

Lemma errors_vapp {A B} (f : V (A -> B)) (a : V A) :
  errors (f <*> a) = (errors f ++ errors a)%list.
Proof. by destruct f, a. Qed.

Lemma errors_elem_inl {A} (r : V A) (e : error_detail) :
  e ∈ errors r -> r = inl (errors r).
Proof. destruct r as [es|a]; simpl; [done|]. by intros ?%elem_of_nil. Qed.

Lemma required_str_inr (body : doc) (k x : string) :
  required_str body k = inr x -> body !! k = Some (VStr x).
Proof.
  unfold required_str. destruct (body !! k) as [[]|]; intros [=]. by subst.
Qed.

Lemma required_str_missing (body : doc) (k : string) :
  body !! k = None -> errors (required_str body k) = [(k, missing)].
Proof. unfold required_str. by intros ->. Qed.

Lemma optional_str_missing (body : doc) (k : string) (x : option string) :
  body !! k = None -> optional_str body k = inr x -> x = None.
Proof. unfold optional_str. intros ->. by intros [= <-]. Qed.

Lemma defaulted_str_missing (dflt : string) (body : doc) (k x : string) :
  body !! k = None -> defaulted_str dflt body k = inr x -> x = dflt.
Proof. unfold defaulted_str. intros ->. by intros [= <-]. Qed.

Section EmailLemmas.

Variable validate_email : string -> option string.

Lemma email_str_missing (body : doc) (k : string) :
  body !! k = None -> errors (email_str validate_email body k) = [(k, missing)].
Proof. unfold email_str. by intros ->. Qed.

Lemma email_str_malformed (body : doc) (k e : string) :
  body !! k = Some (VStr e) -> validate_email e = None ->
  errors (email_str validate_email body k) = [(k, value_error)].
Proof. unfold email_str. by intros -> ->. Qed.

End EmailLemmas.

(** Peel the fields off a successful validation, last field first. *)
Ltac vapp_inv H :=
  repeat match type of H with
         | _ <*> _ = inr _ =>
             let g := fresh "g" in
             let x := fresh "x" in
             let Hx := fresh "Hx" in
             apply vapp_inr in H as (g & x & H & Hx & ->)
         end;
  injection H as <-.

(** ** Creating records *)

Lemma stored_record_lookup (s : Store) (d : doc) (k : string) :
  k <> id_field -> k <> timestamp_field -> stored_record s d !! k = d !! k.
Proof.
  intros H1 H2. unfold stored_record. by rewrite !lookup_insert_ne.
Qed.

Section Creation.

Variable validate_email : string -> option string.
Variable repr_container : value -> string.
Variable unavailable_text : string.
Variable store_order : list doc -> list doc.
Variable negative_limit : Z -> nat.

Abbreviation handle :=
  (handle validate_email repr_container unavailable_text store_order
     negative_limit).
Abbreviation route_errors := (route_errors validate_email).

Lemma respond_create_booking (payload : BookingCreate.t) (s : Store) :
  no_fault 2 s = true ->
  exists lead_doc : doc,
    respond (create_booking repr_container unavailable_text payload) s
    = (Response200
         (VDict (dict_of [("success", VBool true);
                          ("booking_id",
                           VStr (str_ObjectId (mkObjectId (next_oid s))))])),
       after_insert (after_insert s "booking" (model_dump payload))
         "lead" lead_doc) /\
    lead_doc !! "name" = Some (VStr (BookingCreate.student_name payload)) /\
    lead_doc !! "email" = Some (VStr (BookingCreate.email payload)) /\
    lead_doc !! "phone" = Some (VStr (BookingCreate.phone payload)) /\
    lead_doc !! "source" = Some (VStr "booking") /\
    lead_doc !! "tag" = Some (VStr (BookingCreate.service payload)) /\
    lead_doc !! "message"
    = Some (VStr ("Booking requested for " ++ BookingCreate.service payload ++
                  " on " ++ BookingCreate.date payload ++
                  " at " ++ BookingCreate.time payload ++
                  " with instructor " ++
                  instructor_or_any (BookingCreate.instructor payload) ++ ".")).
Proof.
  intros Hf.
  pose proof (no_fault_le 1 2 s ltac:(lia) Hf) as Hf1.
  pose proof (after_insert_no_fault 1 s "booking" (model_dump payload) Hf) as Hf2.
  eexists. split.
  - unfold respond, create_booking, try_except, bind.
    rewrite (create_document_ok unavailable_text "booking" payload s Hf1).
    unfold as_mapping, model_record.
    rewrite (create_document_ok unavailable_text "lead" _ _ Hf2).
    unfold ret. reflexivity.
  - destruct payload as [sn em ph sv [[|c i]|] dt tm pl nt]; simpl.
    all: repeat split; vm_compute; reflexivity.
Qed.

(** C1. A booking body that validates, sent to [POST /api/bookings] while
    the store is connected and its next two round trips succeed, adds one
    record to the bookings, holding the booking's fields, and one record to
    the leads, and touches no other collection. The lead's name, email and
    phone are the booking's student name, email and phone, its source is
    [booking], its tag is the booking's service, and its message is built
    from the service, date, time and instructor. *)
Theorem booking_creates_booking_and_lead
    (body : doc) (payload : BookingCreate.t) (s : Store) :
  validate_BookingCreate validate_email body = inr payload ->
  no_fault 2 s = true ->
  exists (booking_id : string) (booking_record lead_record : doc) (s' : Store),
    handle (POST_api_bookings body) s
    = (Response200 (VDict (dict_of [("success", VBool true);
                                    ("booking_id", VStr booking_id)])), s') /\
    collection s' "booking" = (collection s "booking" ++ [booking_record])%list /\
    collection s' "lead" = (collection s "lead" ++ [lead_record])%list /\
    (forall c, c <> "booking" -> c <> "lead" -> collection s' c = collection s c) /\
    (forall k, k <> id_field -> k <> timestamp_field ->
               booking_record !! k = model_dump payload !! k) /\
    model_dump payload !! "student_name" = body !! "student_name" /\
    model_dump payload !! "phone" = body !! "phone" /\
    model_dump payload !! "service" = body !! "service" /\
    lead_record !! "name" = Some (VStr (BookingCreate.student_name payload)) /\
    lead_record !! "email" = Some (VStr (BookingCreate.email payload)) /\
    lead_record !! "phone" = Some (VStr (BookingCreate.phone payload)) /\
    lead_record !! "source" = Some (VStr "booking") /\
    lead_record !! "tag" = Some (VStr (BookingCreate.service payload)) /\
    lead_record !! "message"
    = Some (VStr ("Booking requested for " ++ BookingCreate.service payload ++
                  " on " ++ BookingCreate.date payload ++
                  " at " ++ BookingCreate.time payload ++
                  " with instructor " ++
                  instructor_or_any (BookingCreate.instructor payload) ++ ".")).
Proof.
  intros Hv Hf.
  destruct (respond_create_booking payload s Hf)
    as (lead_doc & Hrun & Hname & Hemail & Hphone & Hsource & Htag & Hmsg).
  pose proof (no_fault_le 0 2 s ltac:(lia) Hf) as Hf0.
  pose proof (after_insert_no_fault 1 s "booking" (model_dump payload) Hf) as Hf1.
  pose proof (no_fault_le 0 1 _ ltac:(lia) Hf1) as Hf1'.
  set (s1 := after_insert s "booking" (model_dump payload)) in *.
  exists (str_ObjectId (mkObjectId (next_oid s))),
    (stored_record s (model_dump payload)), (stored_record s1 lead_doc),
    (after_insert s1 "lead" lead_doc).
  split; [simpl; unfold with_payload; by rewrite Hv|].
  split; [rewrite after_insert_other by done; by apply after_insert_same|].
  split; [rewrite after_insert_same by done; unfold s1;
          by rewrite after_insert_other|].
  split; [intros c H1 H2; unfold s1; by rewrite !after_insert_other|].
  split; [intros k H1 H2; by apply stored_record_lookup|].
  assert (Hbody : body !! "student_name" = Some (VStr (BookingCreate.student_name payload))
                  /\ body !! "phone" = Some (VStr (BookingCreate.phone payload))
                  /\ body !! "service" = Some (VStr (BookingCreate.service payload))).
  { unfold validate_BookingCreate in Hv. vapp_inv Hv. simpl.
    repeat split; by apply required_str_inr. }
  destruct Hbody as (-> & -> & ->).
  destruct payload as [sn em ph sv ins dt tm pl nt]; simpl in *.
  rewrite !stored_record_lookup by done.
  repeat split; try done; vm_compute; reflexivity.
Qed.

Lemma respond_create_lead (payload : LeadCreate.t) (s : Store) :
  no_fault 1 s = true ->
  respond (create_lead unavailable_text payload) s
  = (Response200
       (VDict (dict_of [("success", VBool true);
                        ("lead_id", VStr (str_ObjectId (mkObjectId (next_oid s))))])),
     after_insert s "lead" (model_dump payload)).
Proof.
  intros Hf. unfold respond, create_lead, try_except, bind.
  by rewrite (create_document_ok unavailable_text "lead" payload s Hf).
Qed.

Lemma respond_contact (payload : ContactMessage.t) (s : Store) :
  no_fault 1 s = true ->
  respond (contact unavailable_text payload) s
  = (Response200
       (VDict (dict_of [("success", VBool true);
                        ("lead_id", VStr (str_ObjectId (mkObjectId (next_oid s))))])),
     after_insert s "lead" (<["source" := VStr "contact"]> (model_dump payload))).
Proof.
  intros Hf. unfold respond, contact, try_except, bind.
  by rewrite (create_document_ok unavailable_text "lead" _ s Hf).
Qed.

(** C2. A lead body without [source] that validates, sent to
    [POST /api/leads] while the store is connected and answers, adds one
    lead record whose source is [website]; each of [phone], [message] and
    [tag] that the body leaves out is stored as null. *)
Theorem lead_source_defaults_to_website
    (body : doc) (payload : LeadCreate.t) (s : Store) :
  body !! "source" = None ->
  validate_LeadCreate validate_email body = inr payload ->
  no_fault 1 s = true ->
  exists (lead_id : string) (lead_record : doc) (s' : Store),
    handle (POST_api_leads body) s
    = (Response200 (VDict (dict_of [("success", VBool true);
                                    ("lead_id", VStr lead_id)])), s') /\
    collection s' "lead" = (collection s "lead" ++ [lead_record])%list /\
    LeadCreate.source payload = "website" /\
    lead_record !! "source" = Some (VStr "website") /\
    (body !! "phone" = None -> lead_record !! "phone" = Some VNone) /\
    (body !! "message" = None -> lead_record !! "message" = Some VNone) /\
    (body !! "tag" = None -> lead_record !! "tag" = Some VNone).
Proof.
  intros Hsrc Hv Hf.
  pose proof (no_fault_le 0 1 s ltac:(lia) Hf) as Hf0.
  exists (str_ObjectId (mkObjectId (next_oid s))),
    (stored_record s (model_dump payload)),
    (after_insert s "lead" (model_dump payload)).
  split; [simpl; unfold with_payload; rewrite Hv; by apply respond_create_lead|].
  split; [by apply after_insert_same|].
  unfold validate_LeadCreate in Hv. vapp_inv Hv.
  rewrite !stored_record_lookup by done. simpl.
  match goal with
  | H : defaulted_str _ _ "source" = inr _ |- _ =>
      apply (defaulted_str_missing _ _ _ _ Hsrc) in H; subst
  end.
  split; [done|]. split; [vm_compute; reflexivity|].
  repeat split; intros Hnone;
    match goal with
    | H : optional_str body ?k = inr _ |- _ !! ?k = _ =>
        apply (optional_str_missing _ _ _ Hnone) in H; subst
    end; vm_compute; reflexivity.
Qed.

(** C3. A contact body that validates, sent to [POST /api/contact] while
    the store is connected and answers, adds one lead record and touches no
    other collection; the record's source is [contact] and its message is
    the submitted one. So it is for the body with name [A], subject [Hi]
    and message [test], once its address [a@b.com] is accepted. *)
Theorem contact_stores_lead (s : Store) :
  no_fault 1 s = true ->
  (forall (body : doc) (payload : ContactMessage.t),
     validate_ContactMessage validate_email body = inr payload ->
     exists (lead_id : string) (lead_record : doc) (s' : Store),
       handle (POST_api_contact body) s
       = (Response200 (VDict (dict_of [("success", VBool true);
                                       ("lead_id", VStr lead_id)])), s') /\
       collection s' "lead" = (collection s "lead" ++ [lead_record])%list /\
       (forall c, c <> "lead" -> collection s' c = collection s c) /\
       lead_record !! "source" = Some (VStr "contact") /\
       lead_record !! "message" = body !! "message" /\
       lead_record !! "message" = Some (VStr (ContactMessage.message payload))) /\
  (is_Some (validate_email "a@b.com") ->
   exists (lead_id : string) (lead_record : doc) (s' : Store),
     handle (POST_api_contact example_contact_body) s
     = (Response200 (VDict (dict_of [("success", VBool true);
                                     ("lead_id", VStr lead_id)])), s') /\
     collection s' "lead" = (collection s "lead" ++ [lead_record])%list /\
     lead_record !! "source" = Some (VStr "contact") /\
     lead_record !! "message" = Some (VStr "test")).
Proof.
  intros Hf.
  pose proof (no_fault_le 0 1 s ltac:(lia) Hf) as Hf0.
  assert (Hgen : forall (body : doc) (payload : ContactMessage.t),
     validate_ContactMessage validate_email body = inr payload ->
     exists (lead_id : string) (lead_record : doc) (s' : Store),
       handle (POST_api_contact body) s
       = (Response200 (VDict (dict_of [("success", VBool true);
                                       ("lead_id", VStr lead_id)])), s') /\
       collection s' "lead" = (collection s "lead" ++ [lead_record])%list /\
       (forall c, c <> "lead" -> collection s' c = collection s c) /\
       lead_record !! "source" = Some (VStr "contact") /\
       lead_record !! "message" = body !! "message" /\
       lead_record !! "message" = Some (VStr (ContactMessage.message payload))).
  { intros body payload Hv.
    exists (str_ObjectId (mkObjectId (next_oid s))),
      (stored_record s (<["source" := VStr "contact"]> (model_dump payload))),
      (after_insert s "lead" (<["source" := VStr "contact"]> (model_dump payload))).
    split; [simpl; unfold with_payload; rewrite Hv; by apply respond_contact|].
    split; [by apply after_insert_same|].
    split; [intros c Hc; by apply after_insert_other|].
    rewrite !stored_record_lookup by done.
    split; [by rewrite lookup_insert_eq|].
    rewrite lookup_insert_ne by done.
    unfold validate_ContactMessage in Hv. vapp_inv Hv. simpl.
    match goal with
    | H : required_str body "message" = inr _ |- _ =>
        apply required_str_inr in H; rewrite H
    end.
    split; vm_compute; reflexivity. }
  split; [exact Hgen|].
  intros [e He].
  destruct (Hgen example_contact_body (ContactMessage.mk "A" e "Hi" "test"))
    as (id & l & s' & H1 & H2 & _ & H3 & _ & H4).
  - unfold validate_ContactMessage, email_str.
    replace (example_contact_body !! "email") with (Some (VStr "a@b.com"))
      by (vm_compute; reflexivity).
    rewrite He. vm_compute. reflexivity.
  - by exists id, l, s'.
Qed.

(** ** Rejection before any write *)

Lemma handle_rejects (r : create_route) (body : doc) (s : Store)
    (e : error_detail) :
  e ∈ route_errors r body ->
  handle (post r body) s = (Response422 (route_errors r body), s).
Proof.
  destruct r; simpl; intros He; apply errors_elem_inl in He;
    unfold with_payload; by rewrite He.
Qed.

Lemma missing_field_reported (r : create_route) (body : doc) (k : string) :
  k ∈ required_fields r -> body !! k = None ->
  (k, missing) ∈ route_errors r body.
Proof.
  intros Hk Hnone.
  destruct r; simpl in *;
    unfold validate_BookingCreate, validate_LeadCreate, validate_ContactMessage;
    rewrite !errors_vapp; simpl;
    repeat (apply elem_of_cons in Hk as [->|Hk]);
    try (by apply elem_of_nil in Hk);
    first [ rewrite (required_str_missing body _ Hnone)
          | rewrite (email_str_missing validate_email body _ Hnone) ];
    set_solver.
Qed.

Lemma malformed_email_reported (r : create_route) (body : doc) (e : string) :
  body !! "email" = Some (VStr e) -> validate_email e = None ->
  ("email", value_error) ∈ route_errors r body.
Proof.
  intros Hb He.
  destruct r; simpl;
    unfold validate_BookingCreate, validate_LeadCreate, validate_ContactMessage;
    rewrite !errors_vapp; simpl;
    rewrite (email_str_malformed validate_email body _ e Hb He);
    set_solver.
Qed.

(** C6. A body that lacks a required field, or whose [email] is a string
    the address grammar refuses, gets a 422 from each creating route and
    the store is exactly as it was. The errors name every missing required
    field and the refused address. *)
Theorem invalid_input_rejected_before_write
    (r : create_route) (body : doc) (s : Store) :
  (exists k, k ∈ required_fields r /\ body !! k = None) \/
  (exists e, body !! "email" = Some (VStr e) /\ validate_email e = None) ->
  exists es : list error_detail,
    handle (post r body) s = (Response422 es, s) /\
    es <> [] /\
    (forall k, k ∈ required_fields r -> body !! k = None -> (k, missing) ∈ es) /\
    (forall e, body !! "email" = Some (VStr e) -> validate_email e = None ->
               ("email", value_error) ∈ es).
Proof.
  intros Hbad. exists (route_errors r body).
  assert (Hin : exists e, e ∈ route_errors r body).
  { destruct Hbad as [(k & Hk & Hnone) | (e & Hb & He)].
    - eexists. by apply missing_field_reported.
    - eexists. by eapply malformed_email_reported. }
  destruct Hin as [e0 He0].
  split; [by eapply handle_rejects|].
  split; [intros Hnil; rewrite Hnil in He0; by apply elem_of_nil in He0|].
  split.
  - intros k Hk Hnone. by apply missing_field_reported.
  - intros e Hb He. by eapply malformed_email_reported.
Qed.

(** ** Storage faults *)

Lemma after_fault_collection (s : Store) (c : string) :
  collection (after_fault s) c = collection s c.
Proof.
  unfold after_fault. destruct (db s) as [d|] eqn:E; [|done].
  unfold collection. simpl. by rewrite E.
Qed.

Lemma after_fault_faults (s : Store) :
  faults (after_fault s)
  = match db s with Some _ => tail (faults s) | None => faults s end.
Proof. unfold after_fault. by destruct (db s). Qed.

Lemma respond_list_bookings_fault (limit : Z) (s : Store) (e : exn) :
  next_fault unavailable_text s = Some e ->
  respond (list_bookings unavailable_text store_order negative_limit limit) s
  = (ResponseError 500 (str_exn e), after_fault s).
Proof.
  intros He. unfold respond, list_bookings, try_except, bind.
  by rewrite (get_documents_fault _ _ _ _ _ _ _ He).
Qed.

Lemma respond_list_leads_fault (limit : Z) (s : Store) (e : exn) :
  next_fault unavailable_text s = Some e ->
  respond (list_leads unavailable_text store_order negative_limit limit) s
  = (ResponseError 500 (str_exn e), after_fault s).
Proof.
  intros He. unfold respond, list_leads, try_except, bind.
  by rewrite (get_documents_fault _ _ _ _ _ _ _ He).
Qed.

(** C7. When the round trip an endpoint is about to make faults, because
    the connection was never established or because the store fails with
    some error text, the answer is a 500 whose detail is that text. This
    holds for the three creating routes on a valid body and for the two
    listing routes. The store made at most that one round trip and its
    collections are as before. When it is the second insert of
    [POST /api/bookings] that faults, the answer is the same 500 and the
    store made the two round trips and no more. *)
Theorem storage_fault_gives_500 (s : Store) :
  (forall text : string,
     next_fault unavailable_text s = Some (Exception text) ->
     (forall body payload,
        validate_BookingCreate validate_email body = inr payload ->
        handle (POST_api_bookings body) s = (ResponseError 500 text, after_fault s)) /\
     (forall body payload,
        validate_LeadCreate validate_email body = inr payload ->
        handle (POST_api_leads body) s = (ResponseError 500 text, after_fault s)) /\
     (forall body payload,
        validate_ContactMessage validate_email body = inr payload ->
        handle (POST_api_contact body) s = (ResponseError 500 text, after_fault s)) /\
     (forall limit,
        handle (GET_api_bookings limit) s = (ResponseError 500 text, after_fault s)) /\
     (forall limit,
        handle (GET_api_leads limit) s = (ResponseError 500 text, after_fault s)) /\
     (forall c, collection (after_fault s) c = collection s c) /\
     faults (after_fault s)
     = match db s with Some _ => tail (faults s) | None => faults s end) /\
  (forall body payload (text : string),
     validate_BookingCreate validate_email body = inr payload ->
     no_fault 1 s = true ->
     head (tail (faults s)) = Some (Some text) ->
     exists s' : Store,
       handle (POST_api_bookings body) s = (ResponseError 500 text, s') /\
       faults s' = tail (tail (faults s)) /\
       length (collection s' "booking") = S (length (collection s "booking")) /\
       collection s' "lead" = collection s "lead").
Proof.
  split.
  - intros text He. repeat split.
    + intros body payload Hv. simpl. unfold with_payload. rewrite Hv.
      unfold respond, create_booking, try_except, bind.
      by rewrite (create_document_fault _ _ _ _ _ He).
    + intros body payload Hv. simpl. unfold with_payload. rewrite Hv.
      unfold respond, create_lead, try_except, bind.
      by rewrite (create_document_fault _ _ _ _ _ He).
    + intros body payload Hv. simpl. unfold with_payload. rewrite Hv.
      unfold respond, contact, try_except, bind.
      by rewrite (create_document_fault _ _ _ _ _ He).
    + intros limit. simpl. by rewrite (respond_list_bookings_fault _ _ _ He).
    + intros limit. simpl. by rewrite (respond_list_leads_fault _ _ _ He).
    + apply after_fault_collection.
    + apply after_fault_faults.
  - intros body payload text Hv Hf Hsecond.
    set (s1 := after_insert s "booking" (model_dump payload)).
    assert (Hs1 : faults s1 = tail (faults s) /\ is_Some (db s1)).
    { unfold s1, after_insert, no_fault in *.
      destruct (db s) as [d|]; [|done]. simpl. split; [done | by eexists]. }
    destruct Hs1 as [Hfs1 [d1 Hd1]].
    assert (He : next_fault unavailable_text s1 = Some (Exception text)).
    { unfold next_fault. rewrite Hd1, Hfs1.
      destruct (tail (faults s)) as [|[x|] fs]; simpl in Hsecond; try done.
      by injection Hsecond as ->. }
    exists (after_fault s1). split.
    + simpl. unfold with_payload. rewrite Hv.
      unfold respond, create_booking, try_except, bind.
      rewrite (create_document_ok unavailable_text "booking" payload s Hf).
      unfold as_mapping, model_record. fold s1.
      by rewrite (create_document_fault _ _ _ _ _ He).
    + rewrite after_fault_faults, Hd1, Hfs1. split; [done|].
      rewrite !after_fault_collection. unfold s1.
      rewrite after_insert_same by (apply (no_fault_le 0 1); [lia | done]).
      rewrite after_insert_other by done.
      split; [|done]. rewrite length_app. simpl. lia.
Qed.

(** ** Limits *)

Lemma serialized_list_length (docs : list doc) :
  length (serialized_list docs) = length docs.
Proof. unfold serialized_list. apply length_fmap. Qed.

Lemma serialized_flat_ready (d : doc) :
  flat_doc d -> ready_doc (serialize_value <$> d).
Proof.
  intros Hflat k v. rewrite lookup_fmap.
  destruct (d !! k) as [x|] eqn:Hk; [|done]. intros [= <-].
  specialize (Hflat k x Hk). simpl in Hflat.
  apply json_ready_primitive. by destruct x.
Qed.

Lemma serialized_list_ready (docs : list doc) :
  Forall flat_doc docs -> json_ready (VList (serialized_list docs)).
Proof.
  intros Hflat. apply json_ready_list. unfold serialized_list.
  apply Forall_fmap. eapply Forall_impl; [exact Hflat|].
  intros d Hd. unfold compose. rewrite serialize_doc_Some. simpl.
  by apply json_ready_dict, serialized_flat_ready.
Qed.

Lemma answer_records_length (l : list value) :
  (length (records (answer (VList l))) <= length l)%nat.
Proof.
  unfold answer. destruct (encodable (VList l)); simpl; [|lia].
  by rewrite length_map.
Qed.

Lemma respond_list_bookings_ok (limit : Z) (s : Store) :
  no_fault 1 s = true ->
  respond (list_bookings unavailable_text store_order negative_limit limit) s
  = (answer (VList (serialized_list
                      (take (limit_count negative_limit limit)
                         (store_order (collection s "booking"))))),
     set_faults (tail (faults s)) s).
Proof.
  intros Hf. unfold respond, list_bookings, try_except, bind.
  by rewrite (get_documents_ok _ _ _ _ _ _ Hf).
Qed.

Lemma respond_list_leads_ok (limit : Z) (s : Store) :
  no_fault 1 s = true ->
  respond (list_leads unavailable_text store_order negative_limit limit) s
  = (answer (VList (serialized_list
                      (take (limit_count negative_limit limit)
                         (store_order (collection s "lead"))))),
     set_faults (tail (faults s)) s).
Proof.
  intros Hf. unfold respond, list_leads, try_except, bind.
  by rewrite (get_documents_ok _ _ _ _ _ _ Hf).
Qed.

Lemma next_fault_cases (s : Store) :
  no_fault 1 s = true \/ exists e, next_fault unavailable_text s = Some e.
Proof.
  destruct (next_fault unavailable_text s) as [e|] eqn:E.
  - right. by exists e.
  - left. by apply (next_fault_None unavailable_text).
Qed.

Lemma limit_count_nonneg (limit : Z) :
  0 <= limit -> limit_count negative_limit limit = Z.to_nat limit.
Proof. unfold limit_count. intros H. by rewrite (proj2 (Z.leb_le 0 limit) H). Qed.

Lemma list_bookings_bound (limit : Z) (s : Store) :
  0 <= limit ->
  (length (records
             (respond (list_bookings unavailable_text store_order negative_limit
                         limit) s).1)
   <= Z.to_nat limit)%nat.
Proof.
  intros Hlimit. destruct (next_fault_cases s) as [Hf | [e He]].
  - rewrite (respond_list_bookings_ok _ s Hf). simpl.
    etransitivity; [apply answer_records_length|].
    rewrite serialized_list_length, length_take, limit_count_nonneg by done. lia.
  - rewrite (respond_list_bookings_fault _ s e He). simpl. lia.
Qed.

Lemma list_leads_bound (limit : Z) (s : Store) :
  0 <= limit ->
  (length (records
             (respond (list_leads unavailable_text store_order negative_limit
                         limit) s).1)
   <= Z.to_nat limit)%nat.
Proof.
  intros Hlimit. destruct (next_fault_cases s) as [Hf | [e He]].
  - rewrite (respond_list_leads_ok _ s Hf). simpl.
    etransitivity; [apply answer_records_length|].
    rewrite serialized_list_length, length_take, limit_count_nonneg by done. lia.
  - rewrite (respond_list_leads_fault _ s e He). simpl. lia.
Qed.

(** C5. For a limit N, a count and so not negative, [GET /api/bookings] and
    [GET /api/leads] carry at most N records, whatever the store holds or
    does; the endpoints return one serialized record per document the
    store query yields; and with five bookings stored, flat as the data
    model has them, in a store that answers and yields the records of a
    collection in some order of its own, a limit of 2 gives a 200 with
    exactly two records. *)
Theorem list_endpoints_respect_limit (limit : Z) (s : Store) :
  0 <= limit ->
  Z.of_nat (length (records (handle (GET_api_bookings (Some limit)) s).1)) <= limit /\
  Z.of_nat (length (records (handle (GET_api_leads (Some limit)) s).1)) <= limit /\
  (forall docs s',
     get_documents unavailable_text store_order negative_limit "booking" limit s
     = (Return docs, s') ->
     exists out,
       list_bookings unavailable_text store_order negative_limit limit s
       = (Return (VList out), s') /\
       length out = length docs) /\
  (forall docs s',
     get_documents unavailable_text store_order negative_limit "lead" limit s
     = (Return docs, s') ->
     exists out,
       list_leads unavailable_text store_order negative_limit limit s
       = (Return (VList out), s') /\
       length out = length docs) /\
  ((forall l, store_order l ≡ₚ l) ->
   no_fault 1 s = true ->
   Forall flat_doc (collection s "booking") ->
   length (collection s "booking") = 5%nat ->
   exists out,
     (handle (GET_api_bookings (Some 2)) s).1 = Response200 (VList out) /\
     length out = 2%nat).
Proof.
  intros Hlimit.
  split; [simpl; pose proof (list_bookings_bound limit s Hlimit); lia|].
  split; [simpl; pose proof (list_leads_bound limit s Hlimit); lia|].
  split; [|split].
  - intros docs s' Hq. eexists.
    unfold list_bookings, try_except, bind. rewrite Hq.
    split; [reflexivity | apply length_fmap].
  - intros docs s' Hq. eexists.
    unfold list_leads, try_except, bind. rewrite Hq.
    split; [reflexivity | apply length_fmap].
  - intros Hperm Hf Hflat H5. simpl.
    rewrite (respond_list_bookings_ok _ s Hf). simpl.
    rewrite limit_count_nonneg by lia.
    set (docs := take (Z.to_nat 2) (store_order (collection s "booking"))).
    assert (Hdocs : Forall flat_doc docs).
    { unfold docs. apply Forall_take. by rewrite (Hperm _). }
    destruct (serialized_list_ready docs Hdocs) as [Henc Hjson].
    unfold answer. rewrite Henc, Hjson. eexists. split; [reflexivity|].
    rewrite serialized_list_length. unfold docs.
    rewrite length_take, (Permutation_length (Hperm _)), H5. reflexivity.
Qed.

End Creation.

Lemma booking_creates_booking_and_lead_witness :
  exists (booking_id : string) (booking_record lead_record : doc) (s' : Store),
    handle sample_validate_email sample_repr "down" sample_order sample_negative
      (POST_api_bookings sample_booking_body) sample_store
    = (Response200 (VDict (dict_of [("success", VBool true);
                                    ("booking_id", VStr booking_id)])), s') /\
    collection s' "booking"
    = (collection sample_store "booking" ++ [booking_record])%list /\
    collection s' "lead" = (collection sample_store "lead" ++ [lead_record])%list /\
    lead_record !! "source" = Some (VStr "booking") /\
    lead_record !! "tag" = Some (VStr "Road Test Prep") /\
    lead_record !! "message"
    = Some (VStr "Booking requested for Road Test Prep on 2024-05-01 at 10am with instructor Any.").
Proof.
  destruct (booking_creates_booking_and_lead sample_validate_email sample_repr
              "down" sample_order sample_negative sample_booking_body
              (BookingCreate.mk "Ann" "ann@example.com" "555-0100"
                 "Road Test Prep" None "2024-05-01" "10am" None None)
              sample_store)
    as (id & b & l & s' & H1 & H2 & H3 & _ & _ & _ & _ & _ & _ & _ & _ & H4 & H5 & H6).
  - vm_compute. reflexivity.
  - reflexivity.
  - exists id, b, l, s'. repeat split; assumption.
Defined.

Lemma lead_source_defaults_to_website_witness :
  exists (lead_id : string) (lead_record : doc) (s' : Store),
    handle sample_validate_email sample_repr "down" sample_order sample_negative
      (POST_api_leads sample_lead_body) sample_store
    = (Response200 (VDict (dict_of [("success", VBool true);
                                    ("lead_id", VStr lead_id)])), s') /\
    lead_record ∈ collection s' "lead" /\
    lead_record !! "source" = Some (VStr "website") /\
    lead_record !! "phone" = Some VNone.
Proof.
  destruct (lead_source_defaults_to_website sample_validate_email sample_repr
              "down" sample_order sample_negative sample_lead_body
              (LeadCreate.mk "Bo" "bo@example.com" None "website" None None)
              sample_store)
    as (id & l & s' & H1 & H2 & _ & H3 & H4 & _).
  - vm_compute. reflexivity.
  - vm_compute. reflexivity.
  - reflexivity.
  - exists id, l, s'. split; [assumption|]. split.
    + rewrite H2. apply elem_of_app. right. apply list_elem_of_In. by left.
    + split; [assumption|]. apply H4. vm_compute. reflexivity.
Defined.

Lemma contact_stores_lead_witness :
  exists (lead_id : string) (lead_record : doc) (s' : Store),
    handle sample_validate_email sample_repr "down" sample_order sample_negative
      (POST_api_contact example_contact_body) sample_store
    = (Response200 (VDict (dict_of [("success", VBool true);
                                    ("lead_id", VStr lead_id)])), s') /\
    collection s' "lead"
    = (collection sample_store "lead" ++ [lead_record])%list /\
    lead_record !! "source" = Some (VStr "contact") /\
    lead_record !! "message" = Some (VStr "test").
Proof.
  apply (contact_stores_lead sample_validate_email sample_repr "down" sample_order sample_negative sample_store).
  - reflexivity.
  - exists "a@b.com". vm_compute. reflexivity.
Defined.

Lemma invalid_input_rejected_before_write_witness :
  exists es : list error_detail,
    handle sample_validate_email sample_repr "down" sample_order sample_negative
      (POST_api_leads (dict_of [("name", VStr "A"); ("email", VStr "not-an-address")]))
      sample_store
    = (Response422 es, sample_store) /\
    ("email", value_error) ∈ es.
Proof.
  destruct (invalid_input_rejected_before_write sample_validate_email sample_repr
              "down" sample_order sample_negative Leads
              (dict_of [("name", VStr "A"); ("email", VStr "not-an-address")])
              sample_store)
    as (es & H1 & _ & _ & H2).
  - right. exists "not-an-address". split; vm_compute; reflexivity.
  - exists es. split; [exact H1|].
    apply (H2 "not-an-address"); vm_compute; reflexivity.
Defined.

Lemma storage_fault_gives_500_witness :
  handle sample_validate_email sample_repr "down" sample_order sample_negative (GET_api_bookings None)
    faulty_store
  = (ResponseError 500 "connection reset", after_fault faulty_store) /\
  collection (after_fault faulty_store) "booking"
  = collection faulty_store "booking" /\
  faults (after_fault faulty_store) = [].
Proof.
  destruct (storage_fault_gives_500 sample_validate_email sample_repr "down" sample_order sample_negative
              faulty_store) as [H _].
  destruct (H "connection reset") as (_ & _ & _ & H1 & _ & H2 & H3).
  - reflexivity.
  - split; [apply H1|]. split; [apply H2 | exact H3].
Defined.

Lemma list_endpoints_respect_limit_witness :
  exists out,
    (handle sample_validate_email sample_repr "down" sample_order sample_negative
       (GET_api_bookings (Some 2)) five_bookings_store).1
    = Response200 (VList out) /\
    length out = 2%nat.
Proof.
  destruct (list_endpoints_respect_limit sample_validate_email sample_repr
              "down" sample_order sample_negative 2 five_bookings_store)
    as (_ & _ & _ & _ & H).
  - lia.
  - apply H.
    + reflexivity.
    + reflexivity.
    + repeat constructor; apply map_Forall_to_list; vm_compute;
        repeat constructor.
    + reflexivity.
Defined.

(** * Further properties *)

(** ** Serialization, continued *)

Lemma serialize_value_plain (v : value) :
  is_plain v = true -> serialize_value v = v.
Proof. by destruct v. Qed.

Lemma serialize_plain_fmap (m : doc) :
  map_Forall (fun _ v => is_plain v = true) m -> serialize_value <$> m = m.
Proof.
  intros Hplain. apply map_eq. intros k. rewrite lookup_fmap.
  destruct (m !! k) as [v|] eqn:E; [|done]. simpl.
  by rewrite (serialize_value_plain v (Hplain k v E)).
Qed.

(** X1. A document that holds no [ObjectId] and no [datetime] under any key
    comes out of [serialize_doc] as it went in. *)
Theorem serialize_doc_plain_fixed (m : doc) :
  plain_doc (Some m) -> serialize_doc (Some m) = Some m.
Proof.
  unfold plain_doc. intros Hplain. rewrite serialize_doc_Some. f_equal.
  by apply serialize_plain_fmap.
Qed.

Lemma serialize_doc_plain_fixed_witness :
  serialize_doc (Some sample_lead_body) = Some sample_lead_body.
Proof.
  apply (serialize_doc_plain_fixed sample_lead_body).
  apply map_Forall_to_list. vm_compute. repeat constructor.
Defined.

Lemma model_dump_plain_booking (p : BookingCreate.t) :
  map_Forall (fun _ v => is_plain v = true) (model_dump p).
Proof.
  intros k v. destruct p as [sn em ph sv ins dt tm pl nt].
  unfold model_dump, BookingCreate.dump, dict_of. simpl.
  rewrite !lookup_insert.
  repeat case_decide; solve [done | intros [= <-]; by destruct ins, pl, nt].
Qed.

Lemma model_dump_plain_lead (p : LeadCreate.t) :
  map_Forall (fun _ v => is_plain v = true) (model_dump p).
Proof.
  intros k v. destruct p as [nm em ph src msg tg].
  unfold model_dump, LeadCreate.dump, dict_of. simpl.
  rewrite !lookup_insert.
  repeat case_decide; solve [done | intros [= <-]; by destruct ph, msg, tg].
Qed.

Lemma model_dump_plain_contact (p : ContactMessage.t) :
  map_Forall (fun _ v => is_plain v = true) (model_dump p).
Proof.
  intros k v. destruct p as [nm em sb msg].
  unfold model_dump, ContactMessage.dump, dict_of. simpl.
  rewrite !lookup_insert.
  repeat case_decide; solve [done | by intros [= <-]].
Qed.

(** X2. What [model_dump] gives for a booking, a lead or a contact message
    passes through [serialize_doc] unchanged, and so does a contact dump
    once its [source] is set. *)
Theorem serialize_doc_fixes_dumps
    (b : BookingCreate.t) (l : LeadCreate.t) (c : ContactMessage.t) :
  serialize_doc (Some (model_dump b)) = Some (model_dump b) /\
  serialize_doc (Some (model_dump l)) = Some (model_dump l) /\
  serialize_doc (Some (model_dump c)) = Some (model_dump c) /\
  serialize_doc (Some (<["source" := VStr "contact"]> (model_dump c)))
  = Some (<["source" := VStr "contact"]> (model_dump c)).
Proof.
  rewrite !serialize_doc_Some.
  rewrite fmap_insert.
  rewrite (serialize_plain_fmap _ (model_dump_plain_booking b)).
  rewrite (serialize_plain_fmap _ (model_dump_plain_lead l)).
  by rewrite (serialize_plain_fmap _ (model_dump_plain_contact c)).
Qed.

(** X3. Serialization goes field by field: setting a field and then
    serializing is serializing and then setting the serialized field;
    deleting a field commutes likewise; and a key is missing from the
    result exactly when it is missing from the document. *)
Theorem serialize_doc_fieldwise (m : doc) (k : string) (v : value) :
  serialize_doc (Some (<[k := v]> m))
  = insert k (serialize_value v) <$> serialize_doc (Some m) /\
  serialize_doc (Some (delete k m)) = delete k <$> serialize_doc (Some m) /\
  (from_option (fun m' : doc => m' !! k) None (serialize_doc (Some m)) = None
   <-> m !! k = None).
Proof.
  rewrite !serialize_doc_Some. simpl.
  rewrite fmap_insert, fmap_delete. split; [done|]. split; [done|].
  rewrite lookup_fmap. by destruct (m !! k).
Qed.

(** X4. Serialization is shallow: a list or a dictionary stored under a key
    is handed on as it is, whatever it holds inside. *)
Theorem serialize_doc_shallow (m m' : doc) (k : string) (v : value) :
  is_container v = true ->
  m !! k = Some v ->
  serialize_doc (Some m) = Some m' ->
  m' !! k = Some v.
Proof.
  intros Hc Hk. rewrite serialize_doc_Some. intros [= <-].
  rewrite lookup_fmap, Hk. by destruct v.
Qed.

Lemma serialize_doc_shallow_witness :
  exists m' : doc,
    serialize_doc
      (Some (<["refs" := VList [VObjectId (mkObjectId 7)]]> sample_booking))
    = Some m' /\
    m' !! "refs" = Some (VList [VObjectId (mkObjectId 7)]).
Proof.
  eexists. split; [apply serialize_doc_Some|].
  apply (serialize_doc_shallow
           (<["refs" := VList [VObjectId (mkObjectId 7)]]> sample_booking)
           _ "refs" (VList [VObjectId (mkObjectId 7)])).
  - reflexivity.
  - apply lookup_insert_eq.
  - apply serialize_doc_Some.
Defined.

(** ** [oid_str] *)


Lemma append_inv_head (a b c : string) : a ++ b = a ++ c -> b = c.
Proof. induction a as [|x a IH]; simpl; [done|]. intros [= H]. by apply IH. Qed.

Lemma isoformat_sep_differs (t : datetime) :
  isoformat_sep " " t <> isoformat_sep "T" t.
Proof.
  unfold isoformat_sep. intros H.
  repeat (apply append_inv_head in H). discriminate H.
Qed.

(** X5. [oid_str] and the conversion [serialize_doc] applies to a field
    agree on exactly the strings and the [ObjectId]s: a [datetime] gets a
    space from the one and a [T] from the other, and any other value is
    turned into text by the one and kept by the other. *)
Theorem oid_str_agrees_with_serialize {St}
    (repr_container : value -> string) (v : value) (s : St) :
  oid_str repr_container v s = (Return (serialize_value v), s)
  <-> (exists x, v = VStr x) \/ (exists o, v = VObjectId o).
Proof.
  unfold oid_str, try_except, ret. split.
  - destruct v; simpl; intros Heq; try discriminate Heq; eauto.
    injection Heq as H. by apply isoformat_sep_differs in H.
  - intros [[x ->] | [o ->]]; reflexivity.
Qed.

(** ** Validation, continued *)

Lemma required_str_iff (body : doc) (k x : string) :
  required_str body k = inr x <-> str_field body k x.
Proof.
  unfold required_str, str_field.
  destruct (body !! k) as [[]|]; split; intros [=]; by subst.
Qed.

Lemma optional_str_iff (body : doc) (k : string) (o : option string) :
  optional_str body k = inr o <-> opt_field body k o.
Proof.
  unfold optional_str, opt_field.
  destruct (body !! k) as [[]|]; split; try done; try (intros [=]; by subst);
    intros ->; done.
Qed.

Lemma defaulted_str_iff (dflt : string) (body : doc) (k x : string) :
  defaulted_str dflt body k = inr x <-> dflt_field dflt body k x.
Proof.
  unfold defaulted_str, dflt_field.
  destruct (body !! k) as [[]|]; split; try done; try (intros [=]; by subst);
    intros ->; done.
Qed.

Lemma email_str_iff (validate_email : string -> option string)
    (body : doc) (k x : string) :
  email_str validate_email body k = inr x <-> email_field validate_email body k x.
Proof.
  unfold email_str, email_field. split.
  - destruct (body !! k) as [[|?|?|e|?|?|?|?]|]; try done.
    destruct (validate_email e) as [y|] eqn:E; intros [=]; subst. by exists e.
  - intros (e & -> & ->). done.
Qed.

Section ValidationLemmas.

Variable validate_email : string -> option string.

Lemma validate_BookingCreate_intro (body : doc) (p : BookingCreate.t) :
  str_field body "student_name" (BookingCreate.student_name p) ->
  email_field validate_email body "email" (BookingCreate.email p) ->
  str_field body "phone" (BookingCreate.phone p) ->
  str_field body "service" (BookingCreate.service p) ->
  opt_field body "instructor" (BookingCreate.instructor p) ->
  str_field body "date" (BookingCreate.date p) ->
  str_field body "time" (BookingCreate.time p) ->
  opt_field body "pickup_location" (BookingCreate.pickup_location p) ->
  opt_field body "notes" (BookingCreate.notes p) ->
  validate_BookingCreate validate_email body = inr p.
Proof.
  intros H1 H2 H3 H4 H5 H6 H7 H8 H9. unfold validate_BookingCreate.
  apply required_str_iff in H1, H3, H4, H6, H7.
  apply optional_str_iff in H5, H8, H9. apply email_str_iff in H2.
  rewrite H1, H2, H3, H4, H5, H6, H7, H8, H9. by destruct p.
Qed.

Lemma validate_LeadCreate_intro (body : doc) (p : LeadCreate.t) :
  str_field body "name" (LeadCreate.name p) ->
  email_field validate_email body "email" (LeadCreate.email p) ->
  opt_field body "phone" (LeadCreate.phone p) ->
  dflt_field "website" body "source" (LeadCreate.source p) ->
  opt_field body "message" (LeadCreate.message p) ->
  opt_field body "tag" (LeadCreate.tag p) ->
  validate_LeadCreate validate_email body = inr p.
Proof.
  intros H1 H2 H3 H4 H5 H6. unfold validate_LeadCreate.
  apply required_str_iff in H1. apply email_str_iff in H2.
  apply optional_str_iff in H3, H5, H6. apply defaulted_str_iff in H4.
  rewrite H1, H2, H3, H4, H5, H6. by destruct p.
Qed.

Lemma validate_ContactMessage_intro (body : doc) (p : ContactMessage.t) :
  str_field body "name" (ContactMessage.name p) ->
  email_field validate_email body "email" (ContactMessage.email p) ->
  str_field body "subject" (ContactMessage.subject p) ->
  str_field body "message" (ContactMessage.message p) ->
  validate_ContactMessage validate_email body = inr p.
Proof.
  intros H1 H2 H3 H4. unfold validate_ContactMessage.
  apply required_str_iff in H1, H3, H4. apply email_str_iff in H2.
  rewrite H1, H2, H3, H4. by destruct p.
Qed.

(** X6. A booking body validates to a payload exactly when each required
    field holds the payload's string, the address is one the grammar
    accepts and normalises to the payload's, and each optional field is
    absent, null or the payload's string: nothing is trimmed, coerced or
    defaulted. *)
Theorem validate_BookingCreate_iff (body : doc) (p : BookingCreate.t) :
  validate_BookingCreate validate_email body = inr p
  <-> str_field body "student_name" (BookingCreate.student_name p) /\
      email_field validate_email body "email" (BookingCreate.email p) /\
      str_field body "phone" (BookingCreate.phone p) /\
      str_field body "service" (BookingCreate.service p) /\
      opt_field body "instructor" (BookingCreate.instructor p) /\
      str_field body "date" (BookingCreate.date p) /\
      str_field body "time" (BookingCreate.time p) /\
      opt_field body "pickup_location" (BookingCreate.pickup_location p) /\
      opt_field body "notes" (BookingCreate.notes p).
Proof.
  split.
  - unfold validate_BookingCreate. intros Hv. vapp_inv Hv. simpl.
    repeat split;
      first [ by apply required_str_iff | by apply optional_str_iff
            | by apply email_str_iff ].
  - intros (H1 & H2 & H3 & H4 & H5 & H6 & H7 & H8 & H9).
    by apply validate_BookingCreate_intro.
Qed.

(** X7. A lead body validates to a payload exactly when [name] holds the
    payload's string, the address is accepted and normalises to the
    payload's, [phone], [message] and [tag] are absent, null or the
    payload's strings, and [source] is the payload's string or is absent
    with the payload's source being [website]; a null [source] never
    validates. *)
Theorem validate_LeadCreate_iff (body : doc) (p : LeadCreate.t) :
  (validate_LeadCreate validate_email body = inr p
   <-> str_field body "name" (LeadCreate.name p) /\
       email_field validate_email body "email" (LeadCreate.email p) /\
       opt_field body "phone" (LeadCreate.phone p) /\
       dflt_field "website" body "source" (LeadCreate.source p) /\
       opt_field body "message" (LeadCreate.message p) /\
       opt_field body "tag" (LeadCreate.tag p)) /\
  (body !! "source" = Some VNone ->
   validate_LeadCreate validate_email body <> inr p).
Proof.
  assert (Hto : validate_LeadCreate validate_email body = inr p ->
       str_field body "name" (LeadCreate.name p) /\
       email_field validate_email body "email" (LeadCreate.email p) /\
       opt_field body "phone" (LeadCreate.phone p) /\
       dflt_field "website" body "source" (LeadCreate.source p) /\
       opt_field body "message" (LeadCreate.message p) /\
       opt_field body "tag" (LeadCreate.tag p)).
  { unfold validate_LeadCreate. intros Hv. vapp_inv Hv. simpl.
    repeat split;
      first [ by apply required_str_iff | by apply optional_str_iff
            | by apply email_str_iff | by apply defaulted_str_iff ]. }
  split; [split; [exact Hto|]|].
  - intros (H1 & H2 & H3 & H4 & H5 & H6). by apply validate_LeadCreate_intro.
  - intros Hnull Hv. apply Hto in Hv as (_ & _ & _ & H4 & _).
    unfold dflt_field in H4. by rewrite Hnull in H4.
Qed.

(** X8. A contact body validates to a payload exactly when [name],
    [subject] and [message] hold the payload's strings and the address is
    accepted and normalises to the payload's. *)
Theorem validate_ContactMessage_iff (body : doc) (p : ContactMessage.t) :
  validate_ContactMessage validate_email body = inr p
  <-> str_field body "name" (ContactMessage.name p) /\
      email_field validate_email body "email" (ContactMessage.email p) /\
      str_field body "subject" (ContactMessage.subject p) /\
      str_field body "message" (ContactMessage.message p).
Proof.
  split.
  - unfold validate_ContactMessage. intros Hv. vapp_inv Hv. simpl.
    repeat split;
      first [ by apply required_str_iff | by apply email_str_iff ].
  - intros (H1 & H2 & H3 & H4). by apply validate_ContactMessage_intro.
Qed.

End ValidationLemmas.

Section ValidationRoutes.

Variable validate_email : string -> option string.
Variable repr_container : value -> string.
Variable unavailable_text : string.
Variable store_order : list doc -> list doc.
Variable negative_limit : Z -> nat.

Abbreviation handle :=
  (handle validate_email repr_container unavailable_text store_order
     negative_limit).
Abbreviation route_errors := (route_errors validate_email).

(** X9. A key that a route's model does not declare is ignored: adding it
    to the body, whatever its value, changes neither the answer nor what
    happens to the store. *)
Theorem undeclared_field_ignored
    (r : create_route) (body : doc) (k : string) (v : value) (s : Store) :
  k ∉ declared_fields r ->
  handle (post r (<[k := v]> body)) s = handle (post r body) s.
Proof.
  intros Hk.
  destruct r; simpl in *; rewrite !not_elem_of_cons in Hk;
    destruct Hk as (?&?&?&?&Hk);
    unfold validate_BookingCreate, validate_LeadCreate, validate_ContactMessage,
      required_str, email_str, optional_str, defaulted_str;
    [ destruct Hk as (?&?&?&?&?&?) | destruct Hk as (?&?&?) | ];
    by rewrite !lookup_insert_ne.
Qed.

Lemma wrong_type_reported (r : create_route) (body : doc) (k : string) (v : value) :
  k ∈ str_fields r -> body !! k = Some v -> not_str v = true ->
  (k, string_type) ∈ route_errors r body.
Proof.
  intros Hk Hb Hv.
  assert (Hreq : errors (required_str body k) = [(k, string_type)]).
  { unfold required_str. rewrite Hb. by destruct v. }
  assert (Hem : errors (email_str validate_email body k) = [(k, string_type)]).
  { unfold email_str. rewrite Hb. by destruct v. }
  assert (Hdf : errors (defaulted_str "website" body k) = [(k, string_type)]).
  { unfold defaulted_str. rewrite Hb. by destruct v. }
  destruct r; simpl in *;
    unfold validate_BookingCreate, validate_LeadCreate,
      validate_ContactMessage;
    rewrite !errors_vapp; simpl;
    repeat (apply elem_of_cons in Hk as [->|Hk]);
    try (by apply elem_of_nil in Hk);
    first [ rewrite Hreq | rewrite Hem | rewrite Hdf ];
    set_solver.
Qed.

(** X10. A field declared as a string that arrives as anything else, null
    included, is refused: each creating route answers 422 naming the field,
    and the store is exactly as it was. On the leads route this covers
    [source], which has a default but may not be null. *)
Theorem wrong_type_rejected_before_write
    (r : create_route) (body : doc) (k : string) (v : value) (s : Store) :
  k ∈ str_fields r -> body !! k = Some v -> not_str v = true ->
  exists es : list error_detail,
    handle (post r body) s = (Response422 es, s) /\
    (k, string_type) ∈ es.
Proof.
  intros Hk Hb Hv. exists (route_errors r body).
  pose proof (wrong_type_reported r body k v Hk Hb Hv) as Hin.
  split; [by eapply handle_rejects | done].
Qed.

End ValidationRoutes.

(** X11. Dumping a payload and validating the dump gives the payload back,
    for each of the three models, provided the grammar accepts the
    payload's address and leaves it as it is. *)
Theorem dump_validates_back (validate_email : string -> option string)
    (b : BookingCreate.t) (l : LeadCreate.t) (c : ContactMessage.t) :
  (validate_email (BookingCreate.email b) = Some (BookingCreate.email b) ->
   validate_BookingCreate validate_email (model_dump b) = inr b) /\
  (validate_email (LeadCreate.email l) = Some (LeadCreate.email l) ->
   validate_LeadCreate validate_email (model_dump l) = inr l) /\
  (validate_email (ContactMessage.email c) = Some (ContactMessage.email c) ->
   validate_ContactMessage validate_email (model_dump c) = inr c).
Proof.
  split; [|split]; intros He.
  - destruct b as [sn em ph sv ins dt tm pl nt].
    apply validate_BookingCreate_intro; simpl in *;
      try (exists em; split; [vm_compute; reflexivity | exact He]);
      try (vm_compute; reflexivity);
      [destruct ins | destruct pl | destruct nt]; vm_compute; reflexivity.
  - destruct l as [nm em ph src msg tg].
    apply validate_LeadCreate_intro; simpl in *;
      try (exists em; split; [vm_compute; reflexivity | exact He]);
      try (vm_compute; reflexivity);
      [destruct ph | destruct msg | destruct tg]; vm_compute; reflexivity.
  - destruct c as [nm em sb msg].
    apply validate_ContactMessage_intro; simpl in *;
      try (exists em; split; [vm_compute; reflexivity | exact He]);
      vm_compute; reflexivity.
Qed.

Lemma dump_validates_back_witness :
  validate_LeadCreate sample_validate_email
    (model_dump (LeadCreate.mk "Bo" "bo@example.com" None "chat" None (Some "vip")))
  = inr (LeadCreate.mk "Bo" "bo@example.com" None "chat" None (Some "vip")).
Proof.
  apply (dump_validates_back sample_validate_email
           (BookingCreate.mk "Ann" "ann@example.com" "555-0100" "Road Test Prep"
              None "2024-05-01" "10am" None None)
           (LeadCreate.mk "Bo" "bo@example.com" None "chat" None (Some "vip"))
           (ContactMessage.mk "A" "a@b.com" "Hi" "test")).
  vm_compute. reflexivity.
Defined.

Lemma undeclared_field_ignored_witness :
  handle sample_validate_email sample_repr "down" sample_order sample_negative
    (POST_api_leads (<["is_admin" := VBool true]> sample_lead_body)) sample_store
  = handle sample_validate_email sample_repr "down" sample_order sample_negative
      (POST_api_leads sample_lead_body) sample_store.
Proof.
  apply (undeclared_field_ignored sample_validate_email sample_repr "down" sample_order sample_negative
           Leads sample_lead_body "is_admin" (VBool true) sample_store).
  vm_compute. intros H. repeat (apply elem_of_cons in H as [H|H]; [discriminate H|]).
  by apply elem_of_nil in H.
Defined.

Lemma wrong_type_rejected_before_write_witness :
  exists es : list error_detail,
    handle sample_validate_email sample_repr "down" sample_order sample_negative
      (POST_api_leads (<["source" := VNone]> sample_lead_body)) sample_store
    = (Response422 es, sample_store) /\
    ("source", string_type) ∈ es.
Proof.
  apply (wrong_type_rejected_before_write sample_validate_email sample_repr
           "down" sample_order sample_negative Leads (<["source" := VNone]> sample_lead_body) "source" VNone
           sample_store).
  - simpl. rewrite !elem_of_cons. auto.
  - vm_compute. reflexivity.
  - reflexivity.
Defined.

(** ** The health check, continued *)

Lemma str_take_length (n : nat) (s : string) :
  str_len (str_take n s) = Nat.min n (str_len s).
Proof.
  revert n. induction s as [|c s IH]; intros n; simpl; [lia|].
  destruct (is_continuation c) eqn:E; simpl; rewrite ?E.
  - apply IH.
  - destruct n as [|n]; simpl; rewrite ?E; [done|]. by rewrite IH.
Qed.

Lemma str_take_prefix (n : nat) (s : string) :
  String.prefix (str_take n s) s = true.
Proof.
  revert n. induction s as [|c s IH]; intros n; simpl; [done|].
  destruct (is_continuation c); [|destruct n as [|n]; [done|]];
    simpl; destruct (ascii_dec c c); auto.
Qed.

Lemma str_take_all (n : nat) (s : string) :
  (str_len s <= n)%nat -> str_take n s = s.
Proof.
  revert n. induction s as [|c s IH]; intros n; simpl; [done|].
  destruct (is_continuation c).
  - intros H. f_equal. by apply IH.
  - destruct n as [|n]; [lia|]. intros H. f_equal. apply IH. lia.
Qed.

Example str_take_accents :
  str_len "éèà" = 3%nat /\ str_take 2 "éèà" = "éè" /\ str_take 5 "éèà" = "éèà".
Proof. repeat split; vm_compute; reflexivity. Qed.

(** What is left after the first [n] characters starts a character. *)
Lemma str_take_boundary (n : nat) (s : string) :
  exists rest : string,
    s = str_take n s ++ rest /\
    match rest with
    | String c _ => is_continuation c = false
    | EmptyString => True
    end.
Proof.
  revert n. induction s as [|c s IH]; intros n; simpl; [by exists ""|].
  destruct (is_continuation c) eqn:E.
  - destruct (IH n) as (rest & Hs & Hrest). exists rest. simpl.
    split; [|done].
    transitivity (String c (str_take n s ++ rest)); [by f_equal | reflexivity].
  - destruct n as [|n].
    + exists (String c s). by rewrite E.
    + destruct (IH n) as (rest & Hs & Hrest). exists rest. simpl.
      split; [|done].
    transitivity (String c (str_take n s ++ rest)); [by f_equal | reflexivity].
Qed.

(** X12. Whatever the store, the health report has the same six keys, and
    [test_database] returns it. *)
Theorem health_report_keys (s : Store) :
  (test_database s).1 = Return (VDict (health_report s)) /\
  dom (health_report s)
  = list_to_set ["backend"; "database"; "database_url"; "database_name";
                 "connection_status"; "collections"].
Proof.
  destruct s as [[[n colls]|] fs m t u]; [destruct fs as [|[text|] fs]|];
    (split; [reflexivity | vm_compute; reflexivity]).
Qed.

(** X13. The health check never writes: the database handle, the
    identifier counter, the clock and the environment are as before, and
    the store made one round trip when there is a connection and none
    when there is not. *)
Theorem test_database_read_only (s : Store) :
  let s' := (respond test_database s).2 in
  db s' = db s /\
  next_oid s' = next_oid s /\
  now s' = now s /\
  DATABASE_URL s' = DATABASE_URL s /\
  faults s' = match db s with
              | Some _ => tail (faults s)
              | None => faults s
              end /\
  forall c, collection s' c = collection s c.
Proof.
  destruct s as [[[n colls]|] fs m t u]; [destruct fs as [|[text|] fs]|];
    repeat split; reflexivity.
Qed.

Lemma health_collections (s : Store) (d : Database) :
  db s = Some d ->
  quiet (take 1 (faults s)) = true ->
  health_report s !! "collections"
  = Some (VList (VStr <$> take 15 (collection_names d))).
Proof.
  destruct s as [[[n colls]|] fs m t u]; simpl; intros [= <-];
    destruct fs as [|[text|] fs]; simpl; intros Hq; try discriminate Hq;
    vm_compute; reflexivity.
Qed.

(** X14. On a connected store whose listing succeeds, the report lists at
    most 15 collection names, none twice and each the name of a collection
    of the database; with 15 collections or fewer it lists them all. *)
Theorem health_report_collections (s : Store) (d : Database) :
  db s = Some d ->
  quiet (take 1 (faults s)) = true ->
  exists names : list string,
    health_report s !! "collections" = Some (VList (VStr <$> names)) /\
    (length names <= 15)%nat /\
    NoDup names /\
    (forall n, n ∈ names -> is_Some (db_colls d !! n)) /\
    ((size (db_colls d) <= 15)%nat ->
     forall n, is_Some (db_colls d !! n) -> n ∈ names).
Proof.
  intros Hd Hq. exists (take 15 (collection_names d)).
  split; [by apply health_collections|].
  unfold collection_names.
  split; [rewrite length_take; lia|].
  split; [apply (sublist_NoDup _ _ (NoDup_fst_map_to_list (db_colls d))),
            sublist_take|].
  split.
  - intros n Hn. apply elem_of_take in Hn as (i & Hi & _).
    apply list_elem_of_lookup_2 in Hi.
    apply list_elem_of_fmap in Hi as ([k x] & -> & Hkx).
    apply elem_of_map_to_list in Hkx. by exists x.
  - intros Hsize n [x Hx].
    rewrite take_ge by (rewrite length_fmap, length_map_to_list; lia).
    apply list_elem_of_fmap. exists (n, x). split; [done|].
    by apply elem_of_map_to_list.
Qed.

Lemma health_report_collections_witness :
  exists names : list string,
    health_report sample_store !! "collections" = Some (VList (VStr <$> names)) /\
    (length names <= 15)%nat /\
    (forall n, n ∈ names -> n = "booking").
Proof.
  destruct (health_report_collections sample_store
              (mkDatabase (Some "geaux") (<["booking" := [sample_booking]]> ∅)))
    as (names & H1 & H2 & _ & H3 & _); [reflexivity | reflexivity |].
  exists names. split; [exact H1|]. split; [exact H2|].
  intros n Hn. destruct (H3 n Hn) as [x Hx]. simpl in Hx.
  destruct (decide (n = "booking")) as [|Hne]; [done|].
  rewrite lookup_insert_ne in Hx by done. by rewrite lookup_empty in Hx.
Defined.

Lemma health_url (s : Store) :
  health_report s !! "database_url"
  = Some (VStr (match db s with
                | Some _ =>
                    if getenv_set (DATABASE_URL s) then "✅ Set" else "❌ Not Set"
                | None => "❌ Not Set"
                end)).
Proof.
  destruct s as [[[n colls]|] fs m t u]; [destruct fs as [|[text|] fs]|];
    vm_compute; reflexivity.
Qed.

Lemma health_name (s : Store) :
  health_report s !! "database_name"
  = Some (VStr (match db s with
                | Some d => default "✅ Connected" (db_name d)
                | None => "❌ Not Set"
                end)).
Proof.
  destruct s as [[[[n|] colls]|] fs m t u]; [destruct fs as [|[text|] fs] ..|];
    vm_compute; reflexivity.
Qed.

(** X15. The report says the database URL is set exactly when there is a
    connection and [DATABASE_URL] is a non-empty string, so without a
    connection it says not set whatever the environment holds. The
    database name is the handle's [name], a fixed word when the handle has
    none, and not set without a connection. *)
Theorem health_report_url_and_name (s : Store) :
  (health_report s !! "database_url" = Some (VStr "✅ Set")
   <-> is_Some (db s) /\ exists url, DATABASE_URL s = Some url /\ url <> "") /\
  (health_report s !! "database_url" = Some (VStr "✅ Set") \/
   health_report s !! "database_url" = Some (VStr "❌ Not Set")) /\
  health_report s !! "database_name"
  = Some (VStr (match db s with
                | Some d => default "✅ Connected" (db_name d)
                | None => "❌ Not Set"
                end)).
Proof.
  split; [|split; [|apply health_name]]; rewrite !health_url.
  - destruct (db s) as [d|]; destruct (DATABASE_URL s) as [[|c url]|]; simpl.
    all: split;
      [ intros H; try discriminate H
      | intros [[d' Hd'] (url' & Hu & Hne)]; try discriminate Hd';
        try discriminate Hu ].
    + injection Hu as <-. done.
    + split; [by eexists|]. by eexists.
    + reflexivity.
  - destruct (db s) as [d|]; [|by right].
    destruct (getenv_set (DATABASE_URL s)); [by left | by right].
Qed.

(** X16. When listing the collections faults, the report shows, after its
    fixed words, the first 80 characters of the error text: the whole text
    when it has 80 characters or fewer, and otherwise a prefix of it that
    is 80 characters long and ends where a character ends. *)
Theorem health_report_error_text (s : Store) (d : Database) (text : string) :
  db s = Some d ->
  head (faults s) = Some (Some text) ->
  exists shown rest : string,
    health_report s !! "database"
    = Some (VStr ("⚠️ Connected but Error: " ++ shown)) /\
    text = shown ++ rest /\
    str_len shown = Nat.min 80 (str_len text) /\
    match rest with
    | String c _ => is_continuation c = false
    | EmptyString => True
    end /\
    ((str_len text <= 80)%nat -> shown = text).
Proof.
  intros Hd Hf. destruct (str_take_boundary 80 text) as (rest & Htext & Hrest).
  exists (str_take 80 text), rest.
  split.
  - destruct s as [[[n colls]|] fs m t u]; [|discriminate Hd].
    destruct fs as [|[x|] fs]; simpl in Hf; try discriminate Hf.
    injection Hf as ->. vm_compute. reflexivity.
  - split; [exact Htext|].
    split; [apply str_take_length|].
    split; [exact Hrest | apply str_take_all].
Qed.

Lemma health_report_error_text_witness :
  health_report faulty_store !! "database"
  = Some (VStr "⚠️ Connected but Error: connection reset").
Proof.
  destruct (health_report_error_text faulty_store
              (mkDatabase (Some "geaux") (<["booking" := [sample_booking]]> ∅))
              "connection reset")
    as (shown & rest & H1 & _ & _ & _ & H2); [reflexivity | reflexivity |].
  rewrite H1, H2; [reflexivity | vm_compute; lia].
Defined.

(** ** The schema explorer *)

(** X17. The schema [get_schema] describes is the one the models have: the
    fields it lists for bookings are the keys of a dumped booking payload,
    the fields it lists for leads are the keys of a dumped lead payload,
    no field is listed twice, and the store is not touched. *)
Theorem schema_matches_models (s : Store) :
  exists (schema : value) (booking_fields lead_fields : list string),
    get_schema s = (Return schema, s) /\
    schema_fields schema "booking" = Some booking_fields /\
    schema_fields schema "lead" = Some lead_fields /\
    NoDup booking_fields /\ NoDup lead_fields /\
    (forall b : BookingCreate.t, dom (model_dump b) = list_to_set booking_fields) /\
    (forall l : LeadCreate.t, dom (model_dump l) = list_to_set lead_fields).
Proof.
  do 3 eexists. split; [reflexivity|].
  split; [vm_compute; reflexivity|]. split; [vm_compute; reflexivity|].
  split; [apply (bool_decide_unpack _); by vm_compute|].
  split; [apply (bool_decide_unpack _); by vm_compute|].
  split.
  - intros [sn em ph sv ins dt tm pl nt]. vm_compute. reflexivity.
  - intros [nm em ph src msg tg]. vm_compute. reflexivity.
Qed.

(** ** Records as stored and as listed *)

Lemma stored_record_dom (s : Store) (d : doc) :
  dom (stored_record s d) = {[id_field]} ∪ ({[timestamp_field]} ∪ dom d).
Proof. unfold stored_record. by rewrite !dom_insert_L. Qed.

Section Records.

Variable validate_email : string -> option string.
Variable repr_container : value -> string.
Variable unavailable_text : string.
Variable store_order : list doc -> list doc.
Variable negative_limit : Z -> nat.

Abbreviation handle :=
  (handle validate_email repr_container unavailable_text store_order
     negative_limit).

Lemma respond_create_booking_doc (payload : BookingCreate.t) (s : Store) :
  no_fault 2 s = true ->
  respond (create_booking repr_container unavailable_text payload) s
  = (Response200
       (VDict (dict_of [("success", VBool true);
                        ("booking_id",
                         VStr (str_ObjectId (mkObjectId (next_oid s))))])),
     after_insert (after_insert s "booking" (model_dump payload))
       "lead" (booking_lead_doc repr_container payload)).
Proof.
  intros Hf.
  pose proof (no_fault_le 1 2 s ltac:(lia) Hf) as Hf1.
  pose proof (after_insert_no_fault 1 s "booking" (model_dump payload) Hf) as Hf2.
  unfold respond, create_booking, try_except, bind.
  rewrite (create_document_ok unavailable_text "booking" payload s Hf1).
  unfold as_mapping, model_record.
  rewrite (create_document_ok unavailable_text "lead" _ _ Hf2).
  reflexivity.
Qed.

(** X18. With the store adding its identifier and timestamp to what it is
    given, the lead that [POST /api/bookings] stores has, besides those two,
    exactly the six fields the schema lists for leads, while the lead that
    [POST /api/contact] stores has [name], [email], [subject], [message]
    and [source]: it carries a subject and has no [phone] and no [tag]. *)
Theorem stored_lead_fields (s : Store) :
  no_fault 2 s = true ->
  (forall body payload,
     validate_BookingCreate validate_email body = inr payload ->
     exists lead_record : doc,
       last (collection (handle (POST_api_bookings body) s).2 "lead")
       = Some lead_record /\
       dom lead_record
       = list_to_set [id_field; timestamp_field; "name"; "email"; "phone";
                      "source"; "tag"; "message"]) /\
  (forall body payload,
     validate_ContactMessage validate_email body = inr payload ->
     exists lead_record : doc,
       last (collection (handle (POST_api_contact body) s).2 "lead")
       = Some lead_record /\
       dom lead_record
       = list_to_set [id_field; timestamp_field; "name"; "email"; "subject";
                      "message"; "source"] /\
       lead_record !! "subject" = body !! "subject" /\
       lead_record !! "phone" = None /\
       lead_record !! "tag" = None).
Proof.
  intros Hf.
  pose proof (no_fault_le 1 2 s ltac:(lia) Hf) as Hf1.
  pose proof (no_fault_le 0 2 s ltac:(lia) Hf) as Hf0.
  pose proof (fun d => no_fault_le 0 1 _ ltac:(lia)
                (after_insert_no_fault 1 s "booking" d Hf)) as Hf0'.
  split.
  - intros body payload Hv. simpl. unfold with_payload. rewrite Hv.
    rewrite (respond_create_booking_doc payload s Hf). simpl.
    rewrite after_insert_same by apply Hf0'. rewrite last_snoc.
    eexists. split; [reflexivity|]. rewrite stored_record_dom.
    destruct payload as [sn em ph sv ins dt tm pl nt].
    vm_compute. reflexivity.
  - intros body payload Hv. simpl. unfold with_payload. rewrite Hv.
    rewrite (respond_contact unavailable_text payload s Hf1). simpl.
    rewrite after_insert_same by done. rewrite last_snoc.
    eexists. split; [reflexivity|].
    assert (Hsub : body !! "subject" = Some (VStr (ContactMessage.subject payload))).
    { unfold validate_ContactMessage in Hv. vapp_inv Hv. simpl.
      by apply required_str_inr. }
    rewrite Hsub, stored_record_dom.
    destruct payload as [nm em sb msg].
    repeat split; vm_compute; reflexivity.
Qed.









Lemma collection_set_faults (f : list (option string)) (s : Store) (c : string) :
  collection (set_faults f s) c = collection s c.
Proof. reflexivity. Qed.

(** X21. A GET request never changes what is stored: after any of the six
    reading routes every collection holds the records it held and the
    identifier counter stands where it stood, whether the store answered
    or faulted. *)
Theorem get_requests_read_only (r : Request) (s : Store) :
  is_get r = true ->
  (forall c, collection (handle r s).2 c = collection s c) /\
  next_oid (handle r s).2 = next_oid s.
Proof.
  intros Hget. destruct r as [| |b|limit|b|limit|b| |]; try discriminate Hget; simpl.
  - done.
  - destruct s as [[[n colls]|] fs m t u]; [destruct fs as [|[text|] fs]|]; done.
  - destruct (next_fault_cases unavailable_text s) as [Hf | [e He]].
    + by rewrite (respond_list_bookings_ok unavailable_text store_order negative_limit _ s Hf).
    + rewrite (respond_list_bookings_fault unavailable_text store_order negative_limit _ s e He). simpl.
      split; [intros c; apply after_fault_collection|].
      unfold after_fault. by destruct (db s).
  - destruct (next_fault_cases unavailable_text s) as [Hf | [e He]].
    + by rewrite (respond_list_leads_ok unavailable_text store_order negative_limit _ s Hf).
    + rewrite (respond_list_leads_fault unavailable_text store_order negative_limit _ s e He). simpl.
      split; [intros c; apply after_fault_collection|].
      unfold after_fault. by destruct (db s).
  - done.
  - done.
Qed.

(** X22. Without a [limit] parameter [GET /api/bookings] answers as with a
    limit of 50 and [GET /api/leads] as with a limit of 100, so they carry
    at most 50 and at most 100 records. *)
Theorem default_limits (s : Store) :
  handle (GET_api_bookings None) s = handle (GET_api_bookings (Some 50)) s /\
  handle (GET_api_leads None) s = handle (GET_api_leads (Some 100)) s /\
  (length (records (handle (GET_api_bookings None) s).1) <= 50)%nat /\
  (length (records (handle (GET_api_leads None) s).1) <= 100)%nat.
Proof.
  split; [reflexivity|]. split; [reflexivity|]. simpl.
  pose proof (list_bookings_bound unavailable_text store_order negative_limit
                50 s ltac:(lia)) as Hb.
  pose proof (list_leads_bound unavailable_text store_order negative_limit
                100 s ltac:(lia)) as Hl.
  split; [exact Hb | exact Hl].
Qed.

End Records.

(** ** What a 422 says *)

Lemma required_str_errors (body : doc) (k : string) (e : error_detail) :
  e ∈ errors (required_str body k) ->
  reports_missing body k e \/ reports_type body k e.
Proof.
  unfold required_str, reports_missing, reports_type.
  destruct (body !! k) as [v|]; [destruct v|]; simpl;
    intros He; try (by apply elem_of_nil in He);
    apply list_elem_of_singleton in He as ->; eauto 10.
Qed.

Lemma optional_str_errors (body : doc) (k : string) (e : error_detail) :
  e ∈ errors (optional_str body k) -> reports_type_not_null body k e.
Proof.
  unfold optional_str, reports_type_not_null.
  destruct (body !! k) as [v|]; [destruct v|]; simpl;
    intros He; try (by apply elem_of_nil in He);
    apply list_elem_of_singleton in He as ->; eauto 10.
Qed.

Lemma defaulted_str_errors (dflt : string) (body : doc) (k : string)
    (e : error_detail) :
  e ∈ errors (defaulted_str dflt body k) -> reports_type body k e.
Proof.
  unfold defaulted_str, reports_type.
  destruct (body !! k) as [v|]; [destruct v|]; simpl;
    intros He; try (by apply elem_of_nil in He);
    apply list_elem_of_singleton in He as ->; eauto 10.
Qed.

Lemma email_str_errors (validate_email : string -> option string)
    (body : doc) (k : string) (e : error_detail) :
  e ∈ errors (email_str validate_email body k) ->
  reports_missing body k e \/ reports_type body k e \/
  reports_refused validate_email body k e.
Proof.
  unfold email_str, reports_missing, reports_type, reports_refused.
  destruct (body !! k) as [v|]; [destruct v as [|?|?|x|?|?|?|?]|]; simpl;
    try destruct (validate_email x) eqn:E; simpl;
    intros He; try (by apply elem_of_nil in He);
    apply list_elem_of_singleton in He as ->; eauto 10.
Qed.

Section Accuracy.

Variable validate_email : string -> option string.
Variable repr_container : value -> string.
Variable unavailable_text : string.
Variable store_order : list doc -> list doc.
Variable negative_limit : Z -> nat.

Abbreviation handle :=
  (handle validate_email repr_container unavailable_text store_order
     negative_limit).
Abbreviation route_errors := (route_errors validate_email).

(** Settle one reported error of one declared field. *)
Ltac settle_report :=
  match goal with
  | H : reports_missing _ _ _ |- _ => destruct H as [-> ?]
  | H : reports_type _ _ _ |- _ => destruct H as [-> (? & ? & ?)]
  | H : reports_type_not_null _ _ _ |- _ => destruct H as [-> (? & ? & ? & ?)]
  | H : reports_refused _ _ _ _ |- _ => destruct H as [-> (? & ? & ?)]
  end;
  unfold accurate; simpl;
  repeat split; eauto;
  try (rewrite !elem_of_cons; by auto 12);
  try (eexists; repeat split; eauto;
       intros Hnot; exfalso; apply Hnot; rewrite !elem_of_cons; by auto 12).

Lemma route_errors_accurate (r : create_route) (body : doc) (e : error_detail) :
  e ∈ route_errors r body -> accurate validate_email r body e.
Proof.
  intros He.
  destruct r; simpl in He;
    unfold validate_BookingCreate, validate_LeadCreate, validate_ContactMessage in He;
    rewrite !errors_vapp in He; simpl in He;
    rewrite !elem_of_app in He;
    repeat match goal with
           | H : _ \/ _ |- _ => destruct H as [H|H]
           | H : _ ∈ [] |- _ => by apply elem_of_nil in H
           | H : _ ∈ errors (required_str _ _) |- _ =>
               apply required_str_errors in H
           | H : _ ∈ errors (optional_str _ _) |- _ =>
               apply optional_str_errors in H
           | H : _ ∈ errors (defaulted_str _ _ _) |- _ =>
               apply defaulted_str_errors in H
           | H : _ ∈ errors (email_str _ _ _) |- _ =>
               apply email_str_errors in H
           end;
    settle_report.
Qed.

Lemma vapp_says_why {A B} (f : V (A -> B)) (a : V A) :
  says_why f -> says_why a -> says_why (f <*> a).
Proof.
  destruct f as [es|g], a as [es'|x]; simpl; try done.
  - intros Hes _ Happ. by apply app_eq_nil in Happ as [].
  - intros Hes _. by rewrite app_nil_r.
Qed.

Lemma required_str_says_why (body : doc) (k : string) :
  says_why (required_str body k).
Proof. unfold required_str. by destruct (body !! k) as [[]|]. Qed.

Lemma optional_str_says_why (body : doc) (k : string) :
  says_why (optional_str body k).
Proof. unfold optional_str. by destruct (body !! k) as [[]|]. Qed.

Lemma defaulted_str_says_why (dflt : string) (body : doc) (k : string) :
  says_why (defaulted_str dflt body k).
Proof. unfold defaulted_str. by destruct (body !! k) as [[]|]. Qed.

Lemma email_str_says_why (body : doc) (k : string) :
  says_why (email_str validate_email body k).
Proof.
  unfold email_str. destruct (body !! k) as [[|?|?|x|?|?|?|?]|]; try done.
  by destruct (validate_email x).
Qed.

Lemma validation_says_why (body : doc) :
  says_why (validate_BookingCreate validate_email body) /\
  says_why (validate_LeadCreate validate_email body) /\
  says_why (validate_ContactMessage validate_email body).
Proof.
  unfold validate_BookingCreate, validate_LeadCreate, validate_ContactMessage.
  repeat split;
    repeat (apply vapp_says_why;
            [| first [ apply required_str_says_why | apply optional_str_says_why
                     | apply defaulted_str_says_why | apply email_str_says_why ]]);
    done.
Qed.

Lemma respond_not_422 (endpoint : M Store value) (s s' : Store)
    (es : list error_detail) :
  respond endpoint s <> (Response422 es, s').
Proof.
  unfold respond, answer.
  destruct (endpoint s) as [[v|[text|c d]] s1]; [destruct (encodable v)|..];
    discriminate.
Qed.

Lemma rejected_by_validation {A} (payload : V A) (endpoint : A -> M Store value)
    (s s' : Store) (es : list error_detail) :
  with_payload payload endpoint s = (Response422 es, s') ->
  payload = inl es /\ s' = s.
Proof.
  unfold with_payload. destruct payload as [es0|p].
  - by intros [= <- <-].
  - intros H. by apply respond_not_422 in H.
Qed.

(** X23. A 422 from a creating route comes with the store untouched, lists
    at least one error, and every error it lists is true of the body: what
    it calls missing is a required field the body lacks, what it calls not
    a string is a declared field holding something else, and an address it
    refuses is one the grammar refuses. *)
Theorem validation_errors_accurate
    (r : create_route) (body : doc) (s s' : Store) (es : list error_detail) :
  handle (post r body) s = (Response422 es, s') ->
  s' = s /\ es <> [] /\ Forall (accurate validate_email r body) es.
Proof.
  intros Hrun.
  destruct (validation_says_why body) as (Hb & Hl & Hc).
  assert (Hes : es = route_errors r body /\ s' = s /\ es <> []).
  { destruct r; simpl in Hrun;
      apply rejected_by_validation in Hrun as [Hv ->]; simpl;
      rewrite Hv in *; simpl; done. }
  destruct Hes as (-> & -> & Hne).
  split; [done|]. split; [done|].
  apply Forall_forall. intros e He. by apply route_errors_accurate.
Qed.

End Accuracy.

(** ** Instances *)

Lemma stored_lead_fields_witness :
  exists lead_record : doc,
    last (collection
            (handle sample_validate_email sample_repr "down" sample_order sample_negative
               (POST_api_contact example_contact_body) sample_store).2 "lead")
    = Some lead_record /\
    lead_record !! "subject" = Some (VStr "Hi") /\
    lead_record !! "phone" = None.
Proof.
  destruct (stored_lead_fields sample_validate_email sample_repr "down" sample_order sample_negative
              sample_store) as [_ H]; [reflexivity|].
  destruct (H example_contact_body (ContactMessage.mk "A" "a@b.com" "Hi" "test"))
    as (l & H1 & _ & H2 & H3 & _); [vm_compute; reflexivity|].
  exists l. split; [exact H1|]. split; [|exact H3].
  rewrite H2. vm_compute. reflexivity.
Defined.



Lemma get_requests_read_only_witness :
  collection
    (handle sample_validate_email sample_repr "down" sample_order sample_negative (GET_api_bookings None)
       faulty_store).2 "booking"
  = collection faulty_store "booking".
Proof.
  destruct (get_requests_read_only sample_validate_email sample_repr "down" sample_order sample_negative
              (GET_api_bookings None) faulty_store) as [H _]; [reflexivity|].
  apply H.
Defined.

Lemma validation_errors_accurate_witness :
  Forall (accurate sample_validate_email Leads (dict_of [("name", VStr "A")]))
    [("email", missing)].
Proof.
  destruct (validation_errors_accurate sample_validate_email sample_repr "down" sample_order sample_negative
              Leads (dict_of [("name", VStr "A")]) sample_store sample_store
              [("email", missing)]) as (_ & _ & H).
  - vm_compute. reflexivity.
  - exact H.
Defined.
